(** * CUHK-SYSU dataset adapter (cuhk_sysu.py): model and properties

    The adapter reads four parsed annotation tables (pool, Img, Train,
    TestG50), keeps two dictionaries from image name to a box array and
    to an identity array, labels identities by exact box matching,
    converts the boxes in place and caches the result on disk.

    Arrays are lists, int32 elements are integers with the wrap-around
    written out, dictionaries are finite maps, and the file system and
    the logger are threaded through a state-and-exception monad. *)

From Stdlib Require Import ZArith Lia Ascii.
From stdpp Require Import gmap strings list sorting.

Local Open Scope Z_scope.

(** ** Arrays of boxes *)

(** One row of an [N x 4] array.  Before the conversion of
    [load_roidb] the columns hold (x, y, w, h), afterwards
    (x1, y1, x2, y2). *)
Record Row := mkRow { c0 : Z; c1 : Z; c2 : Z; c3 : Z }.

Global Instance Row_eq_dec : EqDecision Row.
Proof. solve_decision. Defined.

(** Two's-complement reduction to 32 bits: what [astype(np.int32)] and
    int32 array arithmetic do to an integer. *)
Definition int32 (z : Z) : Z := (z + 2 ^ 31) mod 2 ^ 32 - 2 ^ 31.

Definition fits_int32 (z : Z) : Prop := - 2 ^ 31 <= z < 2 ^ 31.

Global Instance fits_int32_dec z : Decision (fits_int32 z).
Proof. unfold fits_int32. apply _. Defined.

(** [box.astype(np.int32)] on one row. *)
Definition astype_int32 (b : Row) : Row :=
  mkRow (int32 (c0 b)) (int32 (c1 b)) (int32 (c2 b)) (int32 (c3 b)).

(** [boxes[:, 2] += boxes[:, 0]; boxes[:, 3] += boxes[:, 1]] on one row
    of an int32 array. *)
Definition add_corner (b : Row) : Row :=
  mkRow (c0 b) (c1 b) (int32 (c2 b + c0 b)) (int32 (c3 b + c1 b)).

(** [(boxes[:, 2] > 0) & (boxes[:, 3] > 0)] on one row. *)
Definition valid (b : Row) : Prop := 0 < c2 b ∧ 0 < c3 b.

Global Instance valid_dec b : Decision (valid b).
Proof. unfold valid. apply _. Defined.

(** ** Paths *)

Definition starts_with_slash (s : string) : bool :=
  match s with
  | String a _ => bool_decide (a = "/"%char)
  | EmptyString => false
  end.

Fixpoint ends_with_slash (s : string) : bool :=
  match s with
  | EmptyString => false
  | String a EmptyString => bool_decide (a = "/"%char)
  | String _ s' => ends_with_slash s'
  end.

(** [posixpath.join] on two components. *)
Definition join (a b : string) : string :=
  if starts_with_slash b then b
  else if bool_decide (a = "") || ends_with_slash a then a +:+ b
  else a +:+ "/" +:+ b.

(** ** Annotation tables, as [loadmat] hands them over *)

(** [TestG50] item: the query (imname, idlocate) and the gallery; a
    gallery box may be the empty array ([None]). *)
Record test_item := mkTestItem {
  Query : string * Row;
  Gallery : list (string * option Row)
}.

Record annotation := mkAnnotation {
  pool : list string;                    (* annotation/pool.mat *)
  Img : list (string * list Row);        (* annotation/Images.mat *)
  Train : list (list (string * Row));    (* .../Train.mat: scenes per person *)
  TestG50 : list test_item               (* .../TestG50.mat *)
}.

(** ** Records of the roidb *)

Record roi := mkRoi {
  gt_boxes : list Row;
  gt_pids : list Z;
  image : string;
  height : Z;
  width : Z
}.

(** ** Exceptions and log records *)

Inductive exn :=
| AssertionError (msg : string)
| KeyError (key : string)
| IndexError
| OverflowError
| NameError (var : string)
| FileNotFoundError (path : string).

Inductive log_record :=
| Warning (pid : Z) (box : Row)   (* "Person: %s, box: %s cannot find in images." *)
| Info (cache_file : string).     (* "Save ground-truth roidb to: %s" *)

Inductive result (A : Type) :=
| Ok (a : A)
| Raise (e : exn).
Arguments Ok {A} a.
Arguments Raise {A} e.

Section Adapter.

(** [pickle] and [unpickle] come from [.utils]; they are taken as a
    serializer [dumps] into some type of file contents and a reader
    [loads]. *)
Context {blob : Type} (dumps : list roi → blob) (loads : blob → list roi).

(** ** The world outside the adapter *)

Record world := mkWorld {
  mat : string → annotation;   (* root directory ↦ its annotation tables *)
  dirs : gset string;          (* cache directories that exist *)
  pkl : gmap string blob;      (* pickle files, by path *)
  img : gmap string (Z * Z);   (* image files, by path ↦ (width, height) *)
  logged : list log_record     (* what the logger has received *)
}.

(** Computations that read and change the world and may raise; the
    world survives an exception. *)
Definition M (A : Type) : Type := world → result A * world.

Definition ret {A} (a : A) : M A := λ w, (Ok a, w).
Definition raise {A} (e : exn) : M A := λ w, (Raise e, w).
Definition bind {A B} (m : M A) (k : A → M B) : M B :=
  λ w, match m w with
       | (Ok a, w') => k a w'
       | (Raise e, w') => (Raise e, w')
       end.

Notation "x ←' m ; k" := (bind m (λ x, k))
  (at level 20, m at level 100, k at level 200, right associativity,
   only parsing).
Notation "m ;;' k" := (bind m (λ _, k))
  (at level 100, k at level 200, right associativity, only parsing).

Definition log (r : log_record) : M unit :=
  λ w, (Ok (), mkWorld (mat w) (dirs w) (pkl w) (img w) (logged w ++ [r])).

Definition makedirs (p : string) : M unit :=
  λ w, (Ok (), mkWorld (mat w) ({[p]} ∪ dirs w) (pkl w) (img w) (logged w)).

Definition pickle (r : list roi) (file : string) : M unit :=
  λ w, (Ok (), mkWorld (mat w) (dirs w) (<[file := dumps r]> (pkl w)) (img w) (logged w)).

(** [d[k]] on a dictionary. *)
Definition getitem {V} (d : gmap string V) (k : string) : M V :=
  match d !! k with
  | Some v => ret v
  | None => raise (KeyError k)
  end.

(** ** set_box_pid *)

(** The index at which the loop of [set_box_pid] stops: the first [i]
    with [np.all(boxes[i] == box)], counted from [i]. *)
Fixpoint find_box (boxes : list Row) (box : Row) (i : nat) : option nat :=
  match boxes with
  | [] => None
  | b :: rest => if decide (b = box) then Some i else find_box rest box (S i)
  end.

(** [pids[i] = pid] on an int32 array: the index must exist and the
    Python integer must fit the element type. *)
Definition setitem_int32 (pids : list Z) (i : nat) (pid : Z) : M (list Z) :=
  if decide (i < length pids)%nat then
    if decide (fits_int32 pid) then ret (<[i := pid]> pids)
    else raise OverflowError
  else raise IndexError.

(** [set_box_pid(boxes, box, pids, pid)]; the mutated [pids] array is
    returned. *)
Definition set_box_pid (boxes : list Row) (box : Row) (pids : list Z) (pid : Z)
  : M (list Z) :=
  match find_box boxes box 0 with
  | Some i => setitem_int32 pids i pid
  | None => log (Warning pid box) ;;' ret pids
  end.

(** ** load_image_indexes *)

Definition load_image_indexes (dirname split : string) : M (list string) :=
  λ w,
    let test := pool (mat w dirname) in
    if decide (split = "test") then (Ok test, w)
    else
      let all_imgs := (Img (mat w dirname)).*1 in
      let train := elements (list_to_set all_imgs ∖ list_to_set test : gset string) in
      (Ok (merge_sort String.le train), w).

(** ** load_roidb *)

(** The two dictionaries local to [load_roidb]. *)
Record store := mkStore {
  name_to_boxes : gmap string (list Row);
  name_to_pids : gmap string (list Z)
}.

Definition no_valid_boxes (im_name : string) : string :=
  "Warning: " +:+ im_name +:+ " has no valid boxes.".

(** Lines 93-101: one dictionary entry per row of the global listing. *)
Fixpoint index_boxes (all_imgs : list (string * list Row)) (st : store) : M store :=
  match all_imgs with
  | [] => ret st
  | (im_name, boxes) :: rest =>
      let boxes := filter valid boxes in
      if decide (0 < length boxes)%nat then
        index_boxes rest
          (mkStore (<[im_name := astype_int32 <$> boxes]> (name_to_boxes st))
                   (<[im_name := replicate (length boxes) (-1)]> (name_to_pids st)))
      else raise (AssertionError (no_valid_boxes im_name))
  end.

(** The statement
    [set_box_pid(name_to_boxes[im_name], box, name_to_pids[im_name], index)];
    [box] is the protocol box already cast to int32. *)
Definition label_box (st : store) (im_name : string) (box : Row) (index : Z) : M store :=
  boxes ←' getitem (name_to_boxes st) im_name;
  pids ←' getitem (name_to_pids st) im_name;
  pids' ←' set_box_pid boxes box pids index;
  ret (mkStore (name_to_boxes st) (<[im_name := pids']> (name_to_pids st))).

(** Lines 117-120: the scenes of one training person. *)
Fixpoint label_scenes (scenes : list (string * Row)) (index : Z) (st : store) : M store :=
  match scenes with
  | [] => ret st
  | (im_name, box) :: rest =>
      st' ←' label_box st im_name (astype_int32 box) index;
      label_scenes rest index st'
  end.

(** Lines 115-120. *)
Fixpoint label_train (train : list (list (string * Row))) (index : Z) (st : store) : M store :=
  match train with
  | [] => ret st
  | scenes :: rest =>
      st' ←' label_scenes scenes index st;
      label_train rest (index + 1) st'
  end.

(** Lines 132-137: the gallery of one query; an empty box ends the loop. *)
Fixpoint label_gallery (gallery : list (string * option Row)) (index : Z) (st : store)
  : M store :=
  match gallery with
  | [] => ret st
  | (im_name, None) :: _ => ret st
  | (im_name, Some box) :: rest =>
      st' ←' label_box st im_name (astype_int32 box) index;
      label_gallery rest index st'
  end.

(** Lines 124-137. *)
Fixpoint label_test (test : list test_item) (index : Z) (st : store) : M store :=
  match test with
  | [] => ret st
  | item :: rest =>
      st1 ←' label_box st (Query item).1 (astype_int32 (Query item).2) index;
      st2 ←' label_gallery (Gallery item) index st1;
      label_test rest (index + 1) st2
  end.

Definition data_path (dirname : string) : string :=
  join (join dirname "Image") "SSM".

Definition image_path_at (dirname : string) (image_indexes : list string) (i : nat)
  : M string :=
  match image_indexes !! i with
  | None => raise IndexError
  | Some name =>
      let image_path := join (data_path dirname) name in
      λ w, if decide (is_Some (img w !! image_path)) then (Ok image_path, w)
           else (Raise (AssertionError ("Path does not exist: " +:+ image_path)), w)
  end.

(** [Image.open(path).size]. *)
Definition Image_open_size (path : string) : M (Z * Z) :=
  λ w, match img w !! path with
       | Some size => (Ok size, w)
       | None => (Raise (FileNotFoundError path), w)
       end.

(** A roidb record while the arrays it holds may still change: the
    arrays are the dictionary entries of [ref_name], shared with the
    dictionaries and with every other record of the same name. *)
Record roi_ref := mkRef {
  ref_name : string;
  ref_image : string;
  ref_height : Z;
  ref_width : Z
}.

(** The contents of a record, read through its array references. *)
Definition deref (st : store) (r : roi_ref) : roi :=
  mkRoi (default [] (name_to_boxes st !! ref_name r))
        (default [] (name_to_pids st !! ref_name r))
        (ref_image r) (ref_height r) (ref_width r).

(** Lines 141-155; [rest] is what is left of [image_indexes] from
    position [i] on. *)
Fixpoint construct (dirname : string) (image_indexes : list string)
    (i : nat) (rest : list string) (st : store) (roidb : list roi_ref)
  : M (store * list roi_ref) :=
  match rest with
  | [] => ret (st, roidb)
  | im_name :: rest' =>
      boxes ←' getitem (name_to_boxes st) im_name;
      let st' := mkStore (<[im_name := add_corner <$> boxes]> (name_to_boxes st))
                         (name_to_pids st) in
      pids ←' getitem (name_to_pids st') im_name;
      path ←' image_path_at dirname image_indexes i;
      size ←' Image_open_size path;
      image ←' image_path_at dirname image_indexes i;
      construct dirname image_indexes (S i) rest' st'
        (roidb ++ [mkRef im_name image size.2 size.1])
  end.

Definition cache_file (dirname split : string) : string :=
  join (join dirname "cache") (split +:+ "_roidb.pkl").

(** Lines 88-158: what [load_roidb] does when there is no cache file. *)
Definition assemble (dirname split : string) (image_indexes : list string)
  : M (list roi) :=
  all_imgs ←' (λ w, (Ok (Img (mat w dirname)), w));
  st ←' index_boxes all_imgs (mkStore ∅ ∅);
  st ←' (if decide (split = "train") then
           train ←' (λ w, (Ok (Train (mat w dirname)), w));
           label_train train 0 st
         else
           test ←' (λ w, (Ok (TestG50 (mat w dirname)), w));
           label_test test 0 st);
  p ←' construct dirname image_indexes 0 image_indexes st [];
  let roidb := deref p.1 <$> p.2 in
  pickle roidb (cache_file dirname split) ;;'
  log (Info (cache_file dirname split)) ;;'
  ret roidb.

Definition load_roidb (dirname split : string) (image_indexes : list string)
  : M (list roi) :=
  let cache_path := join dirname "cache" in
  (λ w, if decide (cache_path ∈ dirs w) then (Ok (), w) else makedirs cache_path w) ;;'
  λ w, match pkl w !! cache_file dirname split with
       | Some b => (Ok (loads b), w)
       | None => assemble dirname split image_indexes w
       end.

(** ** load_probes and the constructor *)

Definition load_probes (dirname : string) : M (list (string * Row)) :=
  λ w, (Ok ((λ item, (join (data_path dirname) (Query item).1,
                      add_corner (astype_int32 (Query item).2)))
            <$> TestG50 (mat w dirname)), w).

Record CUHK_SYSU := mkCUHK_SYSU {
  self_dirname : string;
  self_split : string;
  self_image_indexes : list string;
  self_roidb : list roi;
  self_probes : option (list (string * Row))
}.

Definition CUHK_SYSU_init (dirname split : string) : M CUHK_SYSU :=
  image_indexes ←' load_image_indexes dirname split;
  roidb ←' load_roidb dirname split image_indexes;
  probes ←' (if decide (split = "test") then
               ps ←' load_probes dirname; ret (Some ps)
             else ret None);
  ret (mkCUHK_SYSU dirname split image_indexes roidb probes).

(** ** load_cuhk_sysu_instances *)

Inductive BoxMode := XYXY_ABS.

Record instance := mkInstance {
  bbox : Row;
  bbox_mode : BoxMode;
  category_id : Z;
  person_id : Z
}.

Record record_dict := mkDict {
  file_name : string;
  image_id : string;
  dict_height : Z;
  dict_width : Z;
  annotations : list instance
}.

Definition instances_of (r : roi) : list instance :=
  (λ p, mkInstance p.1 XYXY_ABS 1 p.2) <$> zip (gt_boxes r) (gt_pids r).

(** Lines 178-196. *)
Fixpoint gallery_dicts (roidb : list roi) (i : nat) (rest : list string)
  : M (list record_dict) :=
  match rest with
  | [] => ret []
  | image_index :: rest' =>
      match roidb !! i with
      | None => raise IndexError
      | Some r =>
          dicts ←' gallery_dicts roidb (S i) rest';
          ret (mkDict (image r) image_index (height r) (width r) (instances_of r) :: dicts)
      end
  end.

Definition load_cuhk_sysu_instances (dirname split : string) : M (list record_dict) :=
  dataset ←' CUHK_SYSU_init dirname split;
  gallery_dicts (self_roidb dataset) 0 (self_image_indexes dataset).

(** ** register_cuhk_sysu *)










End Adapter.

(** * Vocabulary of the properties *)

(** [i] is the first position of [boxes] that holds [box]. *)
Definition first_match (boxes : list Row) (box : Row) (i : nat) : Prop :=
  boxes !! i = Some box ∧ box ∉ take i boxes.

Global Instance first_match_dec boxes box i : Decision (first_match boxes box i).
Proof. unfold first_match. apply _. Defined.

(** The gallery entries that the loop of lines 132-137 reaches: those
    before the first empty box. *)
Fixpoint gallery_reached (gallery : list (string * option Row)) : list (string * Row) :=
  match gallery with
  | (im_name, Some box) :: rest => (im_name, box) :: gallery_reached rest
  | _ => []
  end.

(** The calls [set_box_pid(name_to_boxes[im_name], box, name_to_pids[im_name], index)]
    that the train loop makes, in order, as (im_name, box, index). *)
Fixpoint train_calls (train : list (list (string * Row))) (index : Z)
  : list (string * Row * Z) :=
  match train with
  | [] => []
  | scenes :: rest => ((λ s, (s, index)) <$> scenes) ++ train_calls rest (index + 1)
  end.

(** The same for the test loop. *)
Fixpoint test_calls (test : list test_item) (index : Z) : list (string * Row * Z) :=
  match test with
  | [] => []
  | item :: rest =>
      (Query item, index)
        :: ((λ s, (s, index)) <$> gallery_reached (Gallery item))
        ++ test_calls rest (index + 1)
  end.

(** The boxes of the last row of the listing named [name]: the row
    whose arrays lines 93-101 leave in the dictionaries. *)
Fixpoint listed (all_imgs : list (string * list Row)) (name : string)
  : option (list Row) :=
  match all_imgs with
  | [] => None
  | (im_name, boxes) :: rest =>
      match listed rest name with
      | Some bs => Some bs
      | None => if decide (im_name = name) then Some boxes else None
      end
  end.

(** The box array kept for an image: its valid boxes, cast to int32. *)
Definition kept (boxes : list Row) : list Row :=
  astype_int32 <$> filter valid boxes.

(** A call labels position [i] of the array [boxes] of image [name]. *)
Definition hits (boxes : list Row) (name : string) (i : nat)
    (c : string * Row * Z) : Prop :=
  c.1.1 = name ∧ first_match boxes (astype_int32 c.1.2) i.

Global Instance hits_dec boxes name i c : Decision (hits boxes name i c).
Proof. unfold hits. apply _. Defined.

(** The identity that a list of calls leaves at position [i]: the index
    of the last call that labels the position, [init] if there is none. *)
Definition matched_pid (boxes : list Row) (name : string) (i : nat)
    (calls : list (string * Row * Z)) (init : Z) : Z :=
  foldl (λ pid c, if decide (hits boxes name i c) then c.2 else pid) init calls.

(** The in-place conversion of lines 143-144 for each name of a list. *)
Definition convert_all (names : list string) (m : gmap string (list Row))
  : gmap string (list Row) :=
  foldl (λ m name, alter (fmap add_corner) name m) m names.

(** The calls that [load_roidb] makes for a split. *)
Definition protocol_calls (a : annotation) (split : string) : list (string * Row * Z) :=
  if decide (split = "train") then train_calls (Train a) 0
  else test_calls (TestG50 a) 0.


(** Every coordinate of the row, and the two corner sums, fit 32 bits. *)
Definition row_in_range (b : Row) : Prop :=
  fits_int32 (c0 b) ∧ fits_int32 (c1 b) ∧ fits_int32 (c2 b) ∧ fits_int32 (c3 b) ∧
  fits_int32 (c0 b + c2 b) ∧ fits_int32 (c1 b + c3 b).

(** Every valid box of a listing is within range. *)
Definition listing_in_range (all_imgs : list (string * list Row)) : Prop :=
  Forall (λ e, Forall (λ b, valid b → row_in_range b) e.2) all_imgs.

Global Instance row_in_range_dec b : Decision (row_in_range b).
Proof. unfold row_in_range. apply _. Defined.

Global Instance listing_in_range_dec all_imgs : Decision (listing_in_range all_imgs).
Proof. unfold listing_in_range. apply _. Defined.

(** Every image file declares a positive width and a positive height. *)
Definition sizes_positive (images : gmap string (Z * Z)) : Prop :=
  map_Forall (λ _ size, 0 < size.1 ∧ 0 < size.2) images.

Global Instance sizes_positive_dec images : Decision (sizes_positive images).
Proof. unfold sizes_positive. apply _. Defined.

Section Vocabulary.

Context {blob : Type}.

Implicit Types (w : @world blob) (st : store).

(** The world with one more record in the log. *)
Definition with_log w (r : log_record) : world :=
  mkWorld (mat w) (dirs w) (pkl w) (img w) (logged w ++ [r]).

(** Two worlds with the same files; only the log may differ. *)
Definition same_files w w' : Prop :=
  mat w' = mat w ∧ dirs w' = dirs w ∧ pkl w' = pkl w ∧ img w' = img w.

(** The world once [load_roidb] has made sure of the cache directory. *)
Definition with_cache_dir w (dirname : string) : world :=
  if decide (join dirname "cache" ∈ dirs w) then w
  else mkWorld (mat w) ({[join dirname "cache"]} ∪ dirs w) (pkl w) (img w) (logged w).

(** The world once [assemble] has written the cache file and logged it. *)
Definition with_cache (dumps : list roi → blob) w (file : string) (roidb : list roi)
  : world :=
  mkWorld (mat w) (dirs w) (<[file := dumps roidb]> (pkl w)) (img w)
    (logged w ++ [Info file]).

(** The record that line 147 appends for an image name. *)
Definition ref_of w (dirname name : string) : roi_ref :=
  let path := join (data_path dirname) name in
  let size := default (0, 0) (img w !! path) in
  mkRef name path size.2 size.1.

(** The calls of a list made one after the other. *)
Fixpoint label_calls (calls : list (string * Row * Z)) st : @M blob store :=
  match calls with
  | [] => ret st
  | (im_name, box, index) :: rest =>
      bind (label_box st im_name (astype_int32 box) index) (label_calls rest)
  end.

(** The two dictionaries have the same keys and arrays of the same
    length under each key. *)
Definition store_wf st : Prop :=
  ∀ name, match name_to_boxes st !! name, name_to_pids st !! name with
          | Some boxes, Some pids => length pids = length boxes
          | None, None => True
          | _, _ => False
          end.

(** ** Inputs used as examples *)

(** A world with one dataset root: the same annotation tables under
    every root, no cache, the given image files, an empty log. *)
Definition world_of (a : annotation) (images : gmap string (Z * Z)) : @world blob :=
  mkWorld (λ _, a) ∅ ∅ images [].



(** Four listed images, one of them with an invalid third box; two
    training persons, the second with a box that matches nothing; one
    test query whose gallery has an empty box followed by an entry
    whose box is listed and by an entry that names an unlisted image. *)
Definition small_world : @world blob :=
  world_of
    (mkAnnotation
       ["t.jpg"; "g.jpg"]
       [("a.jpg", [mkRow 10 10 5 5; mkRow 40 20 8 16; mkRow 7 7 0 3]);
        ("b.jpg", [mkRow 0 0 30 60]);
        ("t.jpg", [mkRow 5 5 10 10]);
        ("g.jpg", [mkRow 2 3 4 5])]
       [[("a.jpg", mkRow 10 10 5 5); ("b.jpg", mkRow 0 0 30 60)];
        [("a.jpg", mkRow 1 1 3 3)]]
       [mkTestItem ("t.jpg", mkRow 5 5 10 10)
          [("t.jpg", None);
           ("g.jpg", Some (mkRow 2 3 4 5));
           ("ghost.jpg", Some (mkRow 1 1 2 2))]])
    {[ "./data/Image/SSM/a.jpg" := (640, 480);
       "./data/Image/SSM/b.jpg" := (800, 600);
       "./data/Image/SSM/t.jpg" := (320, 240);
       "./data/Image/SSM/g.jpg" := (100, 50) ]}.


(** The second listed image has no box of positive width. *)
Definition no_box_world : @world blob :=
  world_of
    (mkAnnotation [] [("a.jpg", [mkRow 10 10 5 5]); ("z.jpg", [mkRow 3 3 0 7])] [] [])
    {[ "./data/Image/SSM/a.jpg" := (640, 480);
       "./data/Image/SSM/z.jpg" := (640, 480) ]}.

(** The pool names an image that is not listed. *)
Definition stray_pool_world : @world blob :=
  world_of (mkAnnotation ["b.jpg"] [("a.jpg", [mkRow 10 10 5 5])] [] []) ∅.


End Vocabulary.


(** ** The example inputs with pickle files that hold the records themselves *)

Definition plain (r : list roi) : list roi := r.

Definition small : @world (list roi) := small_world.
Definition no_box : @world (list roi) := no_box_world.
Definition stray_pool : @world (list roi) := stray_pool_world.

(** What the train split of [small] assembles, and the world it leaves. *)
Definition small_train_roidb : list roi :=
  [mkRoi [mkRow 10 10 15 15; mkRow 40 20 48 36] [0; -1] "./data/Image/SSM/a.jpg" 480 640;
   mkRoi [mkRow 0 0 30 60] [0] "./data/Image/SSM/b.jpg" 600 800].

Definition small_train_after : @world (list roi) :=
  (load_roidb plain plain "./data" "train" ["a.jpg"; "b.jpg"] small).2.

(** What the test split of [small] assembles. *)
Definition small_test_roidb : list roi :=
  [mkRoi [mkRow 5 5 15 15] [0] "./data/Image/SSM/t.jpg" 240 320;
   mkRoi [mkRow 2 3 6 8] [-1] "./data/Image/SSM/g.jpg" 50 100].


(** * The rest of the module *)

(** [num_images] (lines 26-28). *)
Definition num_images (self : CUHK_SYSU) : nat := length (self_image_indexes self).

(** The dictionary that lines 180-196 build from a roidb record and the
    image identifier at the same position. *)
Definition dict_of (r : roi) (image_index : string) : record_dict :=
  mkDict (image r) image_index (height r) (width r) (instances_of r).

(** How many times a name occurs in an index list. *)
Definition occurrences (name : string) (names : list string) : nat :=
  length (filter (λ n, n = name) names).

(** A call whose int32 box is not among the boxes kept for its image. *)
Definition unmatched (all_imgs : list (string * list Row)) (c : string * Row * Z) : Prop :=
  astype_int32 c.1.2 ∉ default [] (kept <$> listed all_imgs c.1.1).

Global Instance unmatched_dec all_imgs c : Decision (unmatched all_imgs c).
Proof. unfold unmatched. apply _. Defined.

(** The warnings of the unmatched calls of a list, in order. *)
Definition warnings_of (all_imgs : list (string * list Row))
    (calls : list (string * Row * Z)) : list log_record :=
  (λ c, Warning c.2 (astype_int32 c.1.2)) <$> filter (unmatched all_imgs) calls.

(** An image name is listed and its file exists under the root. *)
Definition has_image {blob} (w : @world blob) (dirname name : string) : Prop :=
  is_Some (listed (Img (mat w dirname)) name)
  ∧ is_Some (img w !! join (data_path dirname) name).

Global Instance has_image_dec {blob} (w : @world blob) dirname name :
  Decision (has_image w dirname name).
Proof. unfold has_image. apply _. Defined.

(** The probe that [load_probes] makes of a test item. *)
Definition probe_of (dirname : string) (item : test_item) : string * Row :=
  (join (data_path dirname) (Query item).1, add_corner (astype_int32 (Query item).2)).

(** ** Further example inputs *)

(** The world that the test split of [small] leaves, and the one it
    leaves after the train split has been loaded. *)
Definition small_test_after : @world (list roi) :=
  (load_roidb plain plain "./data" "test" ["t.jpg"; "g.jpg"] small).2.


(** The object built for the test split of [small]. *)
Definition small_test_object : CUHK_SYSU :=
  mkCUHK_SYSU "./data" "test" ["t.jpg"; "g.jpg"] small_test_roidb
    (Some [("./data/Image/SSM/t.jpg", mkRow 5 5 15 15)]).

(** The test split of [small] with an index list that names "t.jpg"
    twice. *)
Definition twice_roidb : list roi :=
  [mkRoi [mkRow 5 5 20 20] [0] "./data/Image/SSM/t.jpg" 240 320;
   mkRoi [mkRow 5 5 20 20] [0] "./data/Image/SSM/t.jpg" 240 320].

Definition twice_after : @world (list roi) :=
  (load_roidb plain plain "./data" "test" ["t.jpg"; "t.jpg"] small).2.

(** A listing with two rows for "a.jpg". *)
Definition relisted : @world (list roi) :=
  world_of
    (mkAnnotation []
       [("a.jpg", [mkRow 1 1 2 2; mkRow 3 3 4 4]); ("a.jpg", [mkRow 10 10 5 5])] [] [])
    {[ "./data/Image/SSM/a.jpg" := (640, 480) ]}.

Definition relisted_roidb : list roi :=
  [mkRoi [mkRow 10 10 15 15] [-1] "./data/Image/SSM/a.jpg" 480 640].

Definition relisted_after : @world (list roi) :=
  (load_roidb plain plain "./data" "train" ["a.jpg"] relisted).2.

(** [small] with a train cache file that holds no record. *)
Definition stale : @world (list roi) :=
  mkWorld (mat small) ∅ {[ "./data/cache/train_roidb.pkl" := [] ]} (img small) [].

(** The dictionaries of the train split of [small]. *)
Definition small_train_dicts : list record_dict :=
  [mkDict "./data/Image/SSM/a.jpg" "a.jpg" 480 640
     [mkInstance (mkRow 10 10 15 15) XYXY_ABS 1 0;
      mkInstance (mkRow 40 20 48 36) XYXY_ABS 1 (-1)];
   mkDict "./data/Image/SSM/b.jpg" "b.jpg" 600 800
     [mkInstance (mkRow 0 0 30 60) XYXY_ABS 1 0]].

(** * Properties *)

Section Properties.

Context {blob : Type} (dumps : list roi → blob) (loads : blob → list roi).

Implicit Types (w : @world blob) (st : store) (boxes : list Row) (pids : list Z).

(** ** The monad *)

Lemma bind_Ok {A B} (m : M A) (k : A → M B) w b w' :
  bind m k w = (Ok b, w') ↔ ∃ a w1, m w = (Ok a, w1) ∧ k a w1 = (Ok b, w').
Proof.
  unfold bind. split.
  - destruct (m w) as [[a|e] w1]; [eauto | discriminate].
  - intros (a & w1 & -> & Hk). exact Hk.
Qed.

Lemma bind_step {A B} (m : M A) (k : A → M B) w a w1 :
  m w = (Ok a, w1) → bind m k w = k a w1.
Proof. unfold bind. by intros ->. Qed.

Lemma bind_Raise {A B} (m : M A) (k : A → M B) w e w1 :
  m w = (Raise e, w1) → bind m k w = (Raise e, w1).
Proof. unfold bind. by intros ->. Qed.

Lemma same_files_refl w : same_files w w.
Proof. by repeat split. Qed.

Lemma same_files_trans w1 w2 w3 :
  same_files w1 w2 → same_files w2 w3 → same_files w1 w3.
Proof. unfold same_files. intros (-> & -> & -> & ->) (-> & -> & -> & ->). done. Qed.

Lemma same_files_with_log w r : same_files w (with_log w r).
Proof. by repeat split. Qed.

(** ** find_box *)

Lemma find_box_None boxes box n : find_box boxes box n = None ↔ box ∉ boxes.
Proof.
  revert n. induction boxes as [|b rest IH]; intros n; simpl.
  - split; [intros _; apply not_elem_of_nil | done].
  - destruct (decide (b = box)) as [->|Hne].
    + split; [done | intros []; left].
    + rewrite IH, not_elem_of_cons. intuition congruence.
Qed.

Lemma first_match_cons b boxes box i :
  b ≠ box → first_match (b :: boxes) box (S i) ↔ first_match boxes box i.
Proof.
  intros Hne. unfold first_match. simpl. rewrite not_elem_of_cons. intuition congruence.
Qed.

Lemma find_box_Some boxes box n i :
  find_box boxes box n = Some i ↔ (n ≤ i)%nat ∧ first_match boxes box (i - n).
Proof.
  revert n. induction boxes as [|b rest IH]; intros n; simpl.
  - split; [done | intros [_ [H _]]; done].
  - destruct (decide (b = box)) as [->|Hne].
    + split.
      * intros [= <-]. split; [lia|]. replace (n - n)%nat with 0%nat by lia.
        split; [done | apply not_elem_of_nil].
      * intros [Hle [Hi Hfirst]]. f_equal.
        destruct (i - n)%nat as [|m] eqn:Hm; [lia|].
        exfalso. apply Hfirst. simpl. left.
    + rewrite IH. split.
      * intros [Hle Hf]. split; [lia|].
        replace (i - n)%nat with (S (i - S n)) by lia. by apply first_match_cons.
      * intros [Hle Hf].
        destruct (i - n)%nat as [|m] eqn:Hm.
        { destruct Hf as [Hf _]. simpl in Hf. congruence. }
        apply first_match_cons in Hf; [|done].
        replace (i - S n)%nat with m by lia. split; [lia | done].
Qed.

Lemma find_box_first boxes box i :
  find_box boxes box 0 = Some i ↔ first_match boxes box i.
Proof.
  rewrite find_box_Some. replace (i - 0)%nat with i by lia. intuition lia.
Qed.

Lemma first_match_lt boxes box i : first_match boxes box i → (i < length boxes)%nat.
Proof. intros [H _]. by eapply lookup_lt_Some. Qed.

(** ** set_box_pid and label_box *)

Lemma set_box_pid_unmatched boxes box pids pid w :
  box ∉ boxes →
  set_box_pid boxes box pids pid w = (Ok pids, with_log w (Warning pid box)).
Proof. intros H%(find_box_None _ _ 0%nat). unfold set_box_pid. by rewrite H. Qed.

Lemma set_box_pid_matched boxes box pids pid i w :
  first_match boxes box i → (i < length pids)%nat → fits_int32 pid →
  set_box_pid boxes box pids pid w = (Ok (<[i := pid]> pids), w).
Proof.
  intros H%find_box_first Hi Hfit. unfold set_box_pid, setitem_int32.
  rewrite H. by rewrite !decide_True.
Qed.

Lemma store_eta st : mkStore (name_to_boxes st) (name_to_pids st) = st.
Proof. by destruct st. Qed.

Lemma label_box_unmatched st im_name boxes pids box index w :
  name_to_boxes st !! im_name = Some boxes →
  name_to_pids st !! im_name = Some pids →
  box ∉ boxes →
  label_box st im_name box index w = (Ok st, with_log w (Warning index box)).
Proof.
  intros Hb Hp Hno. unfold label_box, getitem. rewrite Hb, Hp.
  unfold bind at 1. unfold ret at 1. unfold bind at 1. unfold ret at 1.
  erewrite bind_step by (by apply set_box_pid_unmatched).
  unfold ret. by rewrite insert_id, store_eta.
Qed.



(** ** The labelling loops as lists of calls *)

Lemma bind_ext {A B} (m : M A) (k k' : A → M B) w :
  (∀ a w1, k a w1 = k' a w1) → bind m k w = bind m k' w.
Proof. intros H. unfold bind. destruct (m w) as [[a|e] w1]; [apply H | done]. Qed.

Lemma bind_ext_l {A B} (m m' : M A) (k : A → M B) w :
  (∀ w1, m w1 = m' w1) → bind m k w = bind m' k w.
Proof. intros H. unfold bind. by rewrite H. Qed.

Lemma label_calls_app (cs1 cs2 : list (string * Row * Z)) st w :
  label_calls (cs1 ++ cs2) st w = bind (label_calls cs1 st) (label_calls cs2) w.
Proof.
  revert st w. induction cs1 as [|[[n b] idx] cs1 IH]; intros st w; simpl.
  - done.
  - unfold bind.
    destruct (label_box st n (astype_int32 b) idx w) as [[st'|e] w1]; [apply IH | done].
Qed.

Lemma label_scenes_calls scenes index st w :
  label_scenes scenes index st w = label_calls ((λ s, (s, index)) <$> scenes) st w.
Proof.
  revert st w. induction scenes as [|[n b] rest IH]; intros st w; simpl; [done|].
  by apply bind_ext.
Qed.

Lemma label_train_calls train index st w :
  label_train train index st w = label_calls (train_calls train index) st w.
Proof.
  revert index st w. induction train as [|scenes rest IH]; intros index st w; simpl; [done|].
  rewrite label_calls_app. unfold bind.
  rewrite label_scenes_calls.
  destruct (label_calls _ st w) as [[st'|e] w1]; [apply IH | done].
Qed.

Lemma label_gallery_calls gallery index st w :
  label_gallery gallery index st w
  = label_calls ((λ s, (s, index)) <$> gallery_reached gallery) st w.
Proof.
  revert st w. induction gallery as [|[n [b|]] rest IH]; intros st w; simpl; [done| |done].
  by apply bind_ext.
Qed.

Lemma label_test_calls test index st w :
  label_test test index st w = label_calls (test_calls test index) st w.
Proof.
  revert index st w. induction test as [|item rest IH]; intros index st w; simpl; [done|].
  destruct (Query item) as [n b]; simpl.
  apply bind_ext. intros st1 w1. rewrite label_calls_app.
  unfold bind. rewrite label_gallery_calls.
  destruct (label_calls _ st1 w1) as [[st'|e] w2]; [apply IH | done].
Qed.





(** ** Lines 93-101: the dictionaries built from the listing *)

Lemma index_boxes_world all_imgs st w r w' :
  index_boxes all_imgs st w = (r, w') → w' = w.
Proof.
  revert st. induction all_imgs as [|[n boxes] rest IH]; intros st; simpl.
  - by intros [= _ <-].
  - case_decide; [apply IH | by intros [= _ <-]].
Qed.

Lemma index_boxes_Ok all_imgs st w st' w' :
  index_boxes all_imgs st w = (Ok st', w') →
  Forall (λ e, filter valid e.2 ≠ []) all_imgs
  ∧ (∀ name, name_to_boxes st' !! name
             = match listed all_imgs name with
               | Some raw => Some (kept raw)
               | None => name_to_boxes st !! name
               end)
  ∧ (∀ name, name_to_pids st' !! name
             = match listed all_imgs name with
               | Some raw => Some (replicate (length (kept raw)) (-1))
               | None => name_to_pids st !! name
               end).
Proof.
  revert st. induction all_imgs as [|[n boxes] rest IH]; intros st; simpl.
  - intros [= <- _]. by repeat split.
  - case_decide as Hlen; [|done]. intros H. apply IH in H as (Hall & Hb & Hp).
    split; [|split].
    + constructor; [|done]. simpl. intros Hnil. rewrite Hnil in Hlen. simpl in Hlen. lia.
    + intros name. rewrite Hb. destruct (listed rest name); [done|]. simpl.
      rewrite lookup_insert. case_decide; done.
    + intros name. rewrite Hp. destruct (listed rest name); [done|]. simpl.
      rewrite lookup_insert. case_decide; [|done].
      unfold kept. by rewrite length_fmap.
Qed.

Lemma index_boxes_total all_imgs st w :
  Forall (λ e, filter valid e.2 ≠ []) all_imgs →
  ∃ st', index_boxes all_imgs st w = (Ok st', w).
Proof.
  intros Hall. revert st. induction Hall as [|[n boxes] rest Hne _ IH]; intros st; simpl.
  - by eexists.
  - simpl in Hne. rewrite decide_True; [apply IH|].
    destruct (filter valid boxes); [done | simpl; lia].
Qed.

Lemma index_boxes_Raise all_imgs st w :
  Exists (λ e, filter valid e.2 = []) all_imgs →
  ∃ im_name boxes,
    (im_name, boxes) ∈ all_imgs ∧ filter valid boxes = [] ∧
    index_boxes all_imgs st w = (Raise (AssertionError (no_valid_boxes im_name)), w).
Proof.
  revert st. induction all_imgs as [|[n boxes] rest IH]; intros st Hex.
  - by apply Exists_nil in Hex.
  - simpl. destruct (filter valid boxes) as [|b bs] eqn:Hf.
    + exists n, boxes. split; [left|]. split; [done|].
      case_decide as Hlen; [simpl in Hlen; lia | done].
    + apply Exists_cons in Hex as [Hhd|Htl]; [simpl in Hhd; congruence|].
      case_decide as Hlen; [|simpl in Hlen; lia].
      edestruct IH as (n' & boxes' & Hin & Hnil & Hrun); [exact Htl|].
      exists n', boxes'. split; [by right|]. split; [done|]. exact Hrun.
Qed.

Lemma index_boxes_wf all_imgs st w st' w' :
  index_boxes all_imgs st w = (Ok st', w') → store_wf st → store_wf st'.
Proof.
  intros (_ & Hb & Hp)%index_boxes_Ok Hwf name. rewrite Hb, Hp.
  destruct (listed all_imgs name); [by rewrite length_replicate | apply Hwf].
Qed.

Lemma store_wf_empty : store_wf (mkStore ∅ ∅).
Proof. intros name. simpl. by rewrite !lookup_empty. Qed.

(** ** The cache test of load_roidb *)

Lemma load_roidb_hit dirname split image_indexes w b :
  pkl w !! cache_file dirname split = Some b →
  load_roidb dumps loads dirname split image_indexes w
  = (Ok (loads b), with_cache_dir w dirname).
Proof.
  intros Hb. unfold load_roidb, bind, with_cache_dir, makedirs.
  case_decide; simpl; by rewrite Hb.
Qed.

Lemma load_roidb_miss dirname split image_indexes w :
  pkl w !! cache_file dirname split = None →
  load_roidb dumps loads dirname split image_indexes w
  = assemble dumps dirname split image_indexes (with_cache_dir w dirname).
Proof.
  intros Hb. unfold load_roidb, bind, with_cache_dir, makedirs.
  case_decide; simpl; by rewrite Hb.
Qed.

Lemma with_cache_dir_same w dirname :
  mat (with_cache_dir w dirname) = mat w
  ∧ pkl (with_cache_dir w dirname) = pkl w
  ∧ img (with_cache_dir w dirname) = img w
  ∧ logged (with_cache_dir w dirname) = logged w.
Proof. unfold with_cache_dir. by case_decide. Qed.

(** C8. When [load_roidb] reads the listing (there is no cache file for
    the split) and some image of the listing keeps no box after the
    filter on positive width and height, the load ends with the
    assertion error of the first such image: no record list is
    returned, no cache file is written, nothing is logged. *)
Theorem no_valid_box_is_fatal dirname split image_indexes w :
  pkl w !! cache_file dirname split = None →
  Exists (λ e, filter valid e.2 = []) (Img (mat w dirname)) →
  ∃ im_name boxes,
    (im_name, boxes) ∈ Img (mat w dirname) ∧ filter valid boxes = [] ∧
    load_roidb dumps loads dirname split image_indexes w
    = (Raise (AssertionError (no_valid_boxes im_name)), with_cache_dir w dirname).
Proof.
  intros Hmiss Hex. rewrite load_roidb_miss by done.
  destruct (with_cache_dir_same w dirname) as (Hmat & _).
  rewrite <- Hmat in Hex.
  destruct (index_boxes_Raise _ (mkStore ∅ ∅) (with_cache_dir w dirname) Hex)
    as (n & boxes & Hin & Hnil & Hrun).
  exists n, boxes. rewrite <- Hmat. split; [done|]. split; [done|].
  unfold assemble. unfold bind at 1. by erewrite bind_Raise by exact Hrun.
Qed.

(** ** What a list of calls does to the dictionaries *)

Lemma label_box_Ok st im_name box index w st' w' :
  label_box st im_name box index w = (Ok st', w') →
  ∃ boxes pids,
    name_to_boxes st !! im_name = Some boxes ∧
    name_to_pids st !! im_name = Some pids ∧
    ((∃ i, first_match boxes box i ∧ (i < length pids)%nat ∧ fits_int32 index ∧
           st' = mkStore (name_to_boxes st) (<[im_name := (<[i := index]> pids)]> (name_to_pids st)) ∧
           w' = w)
     ∨ ((box ∉ boxes) ∧ st' = st ∧ w' = with_log w (Warning index box))).
Proof.
  unfold label_box, getitem.
  destruct (name_to_boxes st !! im_name) as [boxes|] eqn:Hb; [|done].
  destruct (name_to_pids st !! im_name) as [pids|] eqn:Hp; [|done].
  unfold bind at 1 2. unfold ret at 1 2. intros H.
  exists boxes, pids. split; [done|]. split; [done|].
  apply bind_Ok in H as (pids' & w1 & Hset & Hret).
  unfold ret in Hret. injection Hret as <- <-.
  unfold set_box_pid in Hset.
  destruct (find_box boxes box 0) as [i|] eqn:Hfind.
  - left. exists i. apply find_box_first in Hfind.
    unfold setitem_int32 in Hset. repeat case_decide; try done.
    unfold ret in Hset. injection Hset as <- <-. done.
  - right. apply find_box_None in Hfind.
    unfold bind, log, ret in Hset. injection Hset as <- <-.
    split; [done|]. split; [|done]. by rewrite insert_id, store_eta.
Qed.

Lemma first_match_inj boxes box i j :
  first_match boxes box i → first_match boxes box j → i = j.
Proof. rewrite <- !find_box_first. congruence. Qed.

Lemma label_calls_Ok calls st w st' w' :
  label_calls calls st w = (Ok st', w') →
  store_wf st →
  name_to_boxes st' = name_to_boxes st
  ∧ store_wf st'
  ∧ same_files w w'
  ∧ Forall (λ c, is_Some (name_to_boxes st !! c.1.1)) calls
  ∧ ∀ name boxes pids,
      name_to_boxes st !! name = Some boxes →
      name_to_pids st !! name = Some pids →
      ∃ pids', name_to_pids st' !! name = Some pids' ∧
               length pids' = length pids ∧
               ∀ i pid, pids !! i = Some pid →
                        pids' !! i = Some (matched_pid boxes name i calls pid).
Proof.
  revert st w. induction calls as [|[[n b] idx] calls IH]; intros st w; simpl.
  - intros [= <- <-] Hwf. split; [done|]. split; [done|]. split; [apply same_files_refl|].
    split; [constructor|]. intros name boxes pids _ Hp. exists pids. by repeat split.
  - intros (st1 & w1 & Hbox & Hrest)%bind_Ok Hwf.
    apply label_box_Ok in Hbox as (boxes0 & pids0 & Hb0 & Hp0 & Hcase).
    assert (name_to_boxes st1 = name_to_boxes st ∧ store_wf st1 ∧ same_files w w1 ∧
            ∀ name boxes pids,
              name_to_boxes st !! name = Some boxes →
              name_to_pids st !! name = Some pids →
              ∃ pids1, name_to_pids st1 !! name = Some pids1 ∧
                       length pids1 = length pids ∧
                       ∀ i pid, pids !! i = Some pid →
                         pids1 !! i
                         = Some (if decide (hits boxes name i (n, b, idx)) then idx else pid))
      as (Hb1 & Hwf1 & Hw1 & Hstep).
    { destruct Hcase as [(i & Hfm & Hi & Hfit & -> & ->)|(Hno & -> & ->)].
      - split; [done|]. split; [|split; [apply same_files_refl|]].
        + intros name. simpl. pose proof (Hwf name) as Hn.
          rewrite lookup_insert. case_decide as Heq; [subst name|done].
          rewrite Hb0. rewrite Hb0, Hp0 in Hn. by rewrite length_insert.
        + intros name boxes pids Hb Hp. simpl. rewrite lookup_insert.
          case_decide as Heq.
          * subst name. rewrite Hb0 in Hb. rewrite Hp0 in Hp.
            injection Hb as <-. injection Hp as <-.
            eexists. split; [done|]. split; [by rewrite length_insert|].
            intros j pid Hj. unfold hits. simpl.
            destruct (decide (i = j)) as [<-|Hij].
            -- rewrite decide_True by done. by apply list_lookup_insert_eq.
            -- rewrite decide_False.
               ++ by rewrite list_lookup_insert_ne.
               ++ intros [_ Hfm']. apply Hij. by eapply first_match_inj.
          * exists pids. split; [done|]. split; [done|].
            intros j pid Hj. unfold hits. simpl.
            by rewrite decide_False by (by intros [? _]).
      - split; [done|]. split; [done|]. split; [apply same_files_with_log|].
        intros name boxes pids Hb Hp. exists pids. split; [done|]. split; [done|].
        intros j pid Hj. rewrite decide_False; [done|].
        unfold hits. simpl. intros [-> [Hfm _]].
        rewrite Hb0 in Hb. injection Hb as <-.
        apply Hno. by eapply list_elem_of_lookup_2. }
    destruct (IH _ _ Hrest Hwf1) as (Hb2 & Hwf2 & Hw2 & Hall & Hpids).
    split; [congruence|]. split; [done|]. split; [by eapply same_files_trans|].
    split.
    { constructor; [simpl; by rewrite Hb0|]. by rewrite <- Hb1. }
    intros name boxes pids Hb Hp.
    destruct (Hstep name boxes pids Hb Hp) as (pids1 & Hp1 & Hlen1 & Hval1).
    rewrite <- Hb1 in Hb.
    destruct (Hpids name boxes pids1 Hb Hp1) as (pids2 & Hp2 & Hlen2 & Hval2).
    exists pids2. split; [done|]. split; [congruence|].
    intros i pid Hi. exact (Hval2 i _ (Hval1 i pid Hi)).
Qed.

(** ** Lines 141-155: the records and the in-place conversion *)

Lemma image_path_at_lookup dirname image_indexes i name w :
  image_indexes !! i = Some name →
  image_path_at dirname image_indexes i w
  = if decide (is_Some (img w !! join (data_path dirname) name))
    then (Ok (join (data_path dirname) name), w)
    else (Raise (AssertionError
                   ("Path does not exist: " +:+ join (data_path dirname) name)), w).
Proof. intros H. unfold image_path_at. by rewrite H. Qed.

Lemma construct_Ok dirname image_indexes pre rest st acc w st' refs w' :
  image_indexes = pre ++ rest →
  construct dirname image_indexes (length pre) rest st acc w = (Ok (st', refs), w') →
  w' = w
  ∧ name_to_pids st' = name_to_pids st
  ∧ name_to_boxes st' = convert_all rest (name_to_boxes st)
  ∧ refs = acc ++ (ref_of w dirname <$> rest)
  ∧ Forall (λ name, is_Some (name_to_boxes st !! name)
                    ∧ is_Some (name_to_pids st !! name)
                    ∧ is_Some (img w !! join (data_path dirname) name)) rest.
Proof.
  revert pre st acc. induction rest as [|name rest IH]; intros pre st acc Hidx; simpl.
  - intros [= <- <- <-]. rewrite app_nil_r. by repeat split.
  - unfold getitem.
    destruct (name_to_boxes st !! name) as [boxes|] eqn:Hb; [|done].
    unfold bind at 1. unfold ret at 1.
    destruct (name_to_pids st !! name) as [pids|] eqn:Hp; [|done].
    unfold bind at 1. unfold ret at 1.
    assert (image_indexes !! length pre = Some name) as Hlook.
    { rewrite Hidx. by rewrite list_lookup_middle. }
    unfold bind at 1. rewrite (image_path_at_lookup _ _ _ _ _ Hlook).
    case_decide as Himg; [|done]. destruct Himg as [size Hsize].
    unfold bind at 1. unfold Image_open_size at 1. rewrite Hsize.
    unfold bind at 1. rewrite (image_path_at_lookup _ _ _ _ _ Hlook).
    rewrite decide_True by (by eexists).
    replace (S (length pre)) with (length (pre ++ [name]))
      by (rewrite length_app; simpl; lia).
    intros H. apply IH in H as (-> & Hpids & Hboxes & Hrefs & Hall).
    2:{ by rewrite <- app_assoc. }
    simpl in *. split; [done|]. split; [done|]. split; [|split].
    + rewrite Hboxes. unfold convert_all. simpl. f_equal.
      apply map_eq. intros n. rewrite lookup_insert, lookup_alter.
      case_decide as Heq; [subst n; by rewrite Hb | done].
    + rewrite Hrefs, <- app_assoc. simpl. do 2 f_equal.
      unfold ref_of. by rewrite Hsize.
    + constructor; [by rewrite Hb, Hp, Hsize|].
      eapply Forall_impl; [exact Hall|]. simpl. intros n (Hn1 & Hn2 & Hn3).
      split; [|done]. rewrite lookup_insert in Hn1.
      case_decide as Heq; [subst n; by rewrite Hb | done].
Qed.


Lemma convert_all_is_Some names (m : gmap string (list Row)) name :
  is_Some (convert_all names m !! name) ↔ is_Some (m !! name).
Proof.
  revert m. induction names as [|n names IH]; intros m; [done|].
  change (convert_all (n :: names) m)
    with (convert_all names (alter (fmap add_corner) n m)).
  rewrite IH, lookup_alter.
  case_decide; [subst; by rewrite fmap_is_Some | done].
Qed.

(** ** The assembled roidb *)

Lemma assemble_Ok dirname split image_indexes w roidb w' :
  assemble dumps dirname split image_indexes w = (Ok roidb, w') →
  ∃ st0 st1 w1 st2 refs,
    index_boxes (Img (mat w dirname)) (mkStore ∅ ∅) w = (Ok st0, w) ∧
    label_calls (protocol_calls (mat w dirname) split) st0 w = (Ok st1, w1) ∧
    construct dirname image_indexes 0 image_indexes st1 [] w1 = (Ok (st2, refs), w1) ∧
    roidb = deref st2 <$> refs ∧
    w' = with_cache dumps w1 (cache_file dirname split) roidb.
Proof.
  unfold assemble. intros H.
  apply bind_Ok in H as (all_imgs & w0 & [= <- <-] & H).
  apply bind_Ok in H as (st0 & w0 & Hidx & H).
  pose proof (index_boxes_world _ _ _ _ _ Hidx) as ->.
  apply bind_Ok in H as (st1 & w1 & Hlab & H).
  apply bind_Ok in H as ([st2 refs] & w2 & Hcon & H).
  assert (w2 = w1) as ->.
  { by apply (construct_Ok dirname image_indexes [] image_indexes st1 [] w1 st2 refs w2). }
  apply bind_Ok in H as ([] & w3 & Hpick & H).
  apply bind_Ok in H as ([] & w4 & Hlog & H).
  unfold ret in H. injection H as <- <-.
  unfold pickle in Hpick. injection Hpick as <-.
  unfold log in Hlog. injection Hlog as <-. simpl.
  exists st0, st1, w1, st2, refs. split; [done|]. split; [|done].
  unfold protocol_calls. case_decide.
  - apply bind_Ok in Hlab as (train & w0 & [= <- <-] & Hlab).
    by rewrite <- label_train_calls.
  - apply bind_Ok in Hlab as (test & w0 & [= <- <-] & Hlab).
    by rewrite <- label_test_calls.
Qed.

Lemma assembled_record dirname split image_indexes w roidb w' :
  pkl w !! cache_file dirname split = None →
  load_roidb dumps loads dirname split image_indexes w = (Ok roidb, w') →
  length roidb = length image_indexes
  ∧ ∃ m : gmap string (list Row),
      (∀ n, m !! n = kept <$> listed (Img (mat w dirname)) n)
      ∧ ∀ k name, image_indexes !! k = Some name →
          ∃ raw size r,
            listed (Img (mat w dirname)) name = Some raw
            ∧ img w !! join (data_path dirname) name = Some size
            ∧ roidb !! k = Some r
            ∧ image r = join (data_path dirname) name
            ∧ width r = size.1 ∧ height r = size.2
            ∧ convert_all image_indexes m !! name = Some (gt_boxes r)
            ∧ length (gt_pids r) = length (kept raw)
            ∧ ∀ i, (i < length (kept raw))%nat →
                gt_pids r !! i
                = Some (matched_pid (kept raw) name i
                          (protocol_calls (mat w dirname) split) (-1)).
Proof.
  intros Hmiss Hload. rewrite load_roidb_miss in Hload by done.
  destruct (with_cache_dir_same w dirname) as (Hmat & _ & Himg & _).
  apply assemble_Ok in Hload as (st0 & st1 & w1 & st2 & refs & Hidx & Hlab & Hcon & -> & _).
  rewrite Hmat in Hidx, Hlab.
  pose proof (index_boxes_wf _ _ _ _ _ Hidx store_wf_empty) as Hwf0.
  apply index_boxes_Ok in Hidx as (_ & Hb0 & Hp0). simpl in Hb0, Hp0.
  apply label_calls_Ok in Hlab as (Hb1 & Hwf1 & (_ & _ & _ & Himg1) & _ & Hpids); [|done].
  apply (construct_Ok dirname image_indexes [] image_indexes) in Hcon
    as (_ & Hp2 & Hb2 & -> & Hall); [|done].
  simpl. split; [by rewrite !length_fmap|].
  exists (name_to_boxes st0). split.
  { intros n. rewrite Hb0. destruct (listed _ n); [done | by rewrite lookup_empty]. }
  intros k name Hk.
  rewrite Forall_forall in Hall.
  destruct (Hall name) as ([boxes1 Hboxes1] & [pids1 Hpids1] & [size Hsize]).
  { by eapply list_elem_of_lookup_2. }
  rewrite Hb1, Hb0 in Hboxes1.
  destruct (listed (Img (mat w dirname)) name) as [raw|] eqn:Hraw;
    [|by rewrite lookup_empty in Hboxes1].
  injection Hboxes1 as <-.
  exists raw, size, (deref st2 (ref_of w1 dirname name)).
  split; [done|]. split; [by rewrite <- Himg, <- Himg1|].
  split; [by rewrite !list_lookup_fmap, Hk|].
  unfold deref, ref_of. simpl. rewrite Hsize. simpl.
  split; [done|]. split; [done|]. split; [done|].
  rewrite Hb2, Hp2, Hpids1, Hb1. simpl.
  assert (name_to_boxes st0 !! name = Some (kept raw)) as Hk0 by (by rewrite Hb0, Hraw).
  assert (name_to_pids st0 !! name = Some (replicate (length (kept raw)) (-1))) as Hq0
    by (by rewrite Hp0, Hraw).
  split.
  { destruct (convert_all image_indexes (name_to_boxes st0) !! name) as [bs|] eqn:Hc;
      [done|].
    assert (is_Some (name_to_boxes st0 !! name)) as His by (by eexists).
    apply (convert_all_is_Some image_indexes) in His. rewrite Hc in His.
    by destruct His. }
  destruct (Hpids name _ _ Hk0 Hq0) as (pids' & Hp' & Hlen & Hval).
  rewrite Hpids1 in Hp'. injection Hp' as <-.
  rewrite length_replicate in Hlen. split; [done|].
  intros i Hi. apply Hval. by apply lookup_replicate_2.
Qed.

(** ** Identities left by the calls *)

Lemma matched_pid_snoc boxes name i calls c init :
  matched_pid boxes name i (calls ++ [c]) init
  = if decide (hits boxes name i c) then c.2 else matched_pid boxes name i calls init.
Proof. unfold matched_pid. by rewrite foldl_app. Qed.

Lemma matched_pid_cases boxes name i calls init :
  (matched_pid boxes name i calls init = init
   ∧ Forall (λ c, ¬ hits boxes name i c) calls)
  ∨ (∃ c, c ∈ calls ∧ hits boxes name i c ∧ matched_pid boxes name i calls init = c.2).
Proof.
  induction calls as [|c calls IH] using rev_ind.
  - left. split; [done | constructor].
  - rewrite matched_pid_snoc. destruct (decide (hits boxes name i c)) as [Hhit|Hno].
    + right. exists c. split; [|done]. apply elem_of_app. right. left.
    + destruct IH as [[Heq Hall]|(c' & Hin & Hhit & Heq)].
      * left. split; [done|]. apply Forall_app. split; [done|]. by constructor.
      * right. exists c'. split; [|done]. apply elem_of_app. by left.
Qed.

Lemma elem_of_train_calls train start (c : string * Row * Z) :
  c ∈ train_calls train start
  ↔ ∃ (k : nat) scenes, train !! k = Some scenes ∧ c.1 ∈ scenes ∧ c.2 = start + Z.of_nat k.
Proof.
  revert start. induction train as [|scenes rest IH]; intros start; simpl.
  - split; [by intros ?%elem_of_nil | by intros (k & s & ? & _)].
  - rewrite elem_of_app, IH, list_elem_of_fmap. split.
    + intros [(s & -> & Hs)|(k & scenes' & Hk & Hin & Heq)].
      * exists 0%nat, scenes. simpl. split; [done|]. split; [done | lia].
      * exists (S k), scenes'. simpl. split; [done|]. split; [done | lia].
    + intros ([|k] & scenes' & Hk & Hin & Heq); simpl in Hk.
      * injection Hk as <-. left. exists c.1. split; [|done].
        destruct c as [s idx]. simpl in *. f_equal. lia.
      * right. exists k, scenes'. split; [done|]. split; [done | lia].
Qed.

(** C6. In the roidb assembled for the train split, the identities of a
    record are those of the boxes kept for its image, position by
    position; each is an integer between -1 and N - 1, N being the
    number of persons of the training protocol, and it is -1 exactly
    when no scene of any person names the image with a box that, as an
    int32 row, has its first occurrence in the image's box array at
    that position. *)
Theorem train_pids_range dirname image_indexes w roidb w' :
  pkl w !! cache_file dirname "train" = None →
  load_roidb dumps loads dirname "train" image_indexes w = (Ok roidb, w') →
  ∀ k r, roidb !! k = Some r →
    ∃ name raw,
      image_indexes !! k = Some name
      ∧ listed (Img (mat w dirname)) name = Some raw
      ∧ length (gt_pids r) = length (kept raw)
      ∧ ∀ i pid, gt_pids r !! i = Some pid →
          -1 ≤ pid ≤ Z.of_nat (length (Train (mat w dirname))) - 1
          ∧ (pid = -1 ↔
             ∀ (index : nat) scenes box,
               Train (mat w dirname) !! index = Some scenes →
               (name, box) ∈ scenes →
               ¬ first_match (kept raw) (astype_int32 box) i).
Proof.
  intros Hmiss Hload k r Hr.
  destruct (assembled_record _ _ _ _ _ _ Hmiss Hload) as (Hlen & m & _ & Hrec).
  destruct (lookup_lt_is_Some_2 image_indexes k) as [name Hname].
  { rewrite <- Hlen. by eapply lookup_lt_Some. }
  destruct (Hrec k name Hname) as (raw & size & r' & Hraw & _ & Hr' & _ & _ & _ & _ & Hl & Hpid).
  rewrite Hr in Hr'. injection Hr' as <-.
  exists name, raw. split; [done|]. split; [done|]. split; [done|].
  intros i pid Hi.
  assert (i < length (kept raw))%nat as Hlt by (rewrite <- Hl; by eapply lookup_lt_Some).
  rewrite (Hpid i Hlt) in Hi. injection Hi as <-.
  unfold protocol_calls. rewrite decide_True by done.
  set (calls := train_calls (Train (mat w dirname)) 0).
  destruct (matched_pid_cases (kept raw) name i calls (-1))
    as [[Heq Hall]|(c & Hin & Hhit & Heq)]; rewrite Heq.
  - split.
    { pose proof (Nat2Z.is_nonneg (length (Train (mat w dirname)))). lia. }
    split; [|done]. intros _ index scenes box Hidx Hin Hfm.
    rewrite Forall_forall in Hall.
    apply (Hall (name, box, Z.of_nat index)); [|by split].
    apply elem_of_train_calls. exists index, scenes. simpl. split; [done|]. split; [done | lia].
  - apply elem_of_train_calls in Hin as (idx & scenes & Hidx & Hin & Hc).
    pose proof (lookup_lt_Some _ _ _ Hidx) as Hbound.
    split; [lia|]. split; [lia|].
    intros Hnone. exfalso. destruct c as [[n b] ci]. destruct Hhit as [Hn Hfm].
    simpl in *. subst n. by eapply Hnone.
Qed.

(** ** Boxes within the 32-bit range *)









(** ** The labelling loops only add to the log *)

Lemma label_box_files st im_name box index w r w' :
  label_box st im_name box index w = (r, w') → same_files w w'.
Proof.
  unfold label_box, getitem.
  destruct (name_to_boxes st !! im_name) as [boxes|]; [|intros [= _ <-]; apply same_files_refl].
  destruct (name_to_pids st !! im_name) as [pids|]; [|intros [= _ <-]; apply same_files_refl].
  unfold bind, ret, set_box_pid, setitem_int32, raise, log.
  destruct (find_box boxes box 0).
  - repeat case_decide; intros [= _ <-]; apply same_files_refl.
  - intros [= _ <-]. by repeat split.
Qed.

Lemma label_calls_files calls st w r w' :
  label_calls calls st w = (r, w') → same_files w w'.
Proof.
  revert st w. induction calls as [|[[n b] idx] calls IH]; intros st w; simpl.
  - intros [= _ <-]. apply same_files_refl.
  - unfold bind. destruct (label_box st n (astype_int32 b) idx w) as [[st1|e] w1] eqn:Hbox.
    + intros H. eapply same_files_trans; [by eapply label_box_files | by eapply IH].
    + intros [= _ <-]. by eapply label_box_files.
Qed.

(** ** The cache *)

Lemma with_cache_dir_elem w dirname :
  join dirname "cache" ∈ dirs (with_cache_dir w dirname).
Proof. unfold with_cache_dir. case_decide; [done|]. simpl. set_solver. Qed.

Lemma with_cache_dir_id w dirname :
  join dirname "cache" ∈ dirs w → with_cache_dir w dirname = w.
Proof. intros H. unfold with_cache_dir. by rewrite decide_True. Qed.

(** C5. If the cache file of a split exists, [load_roidb] returns what
    [unpickle] reads from it, whatever the annotation tables and the
    index list are, and writes and logs nothing.  So, [unpickle] giving
    back what [pickle] was given, a load that follows a first load (one
    that found no cache file and wrote it) returns the records of the
    first load. *)
Theorem cache_is_trusted dirname split image_indexes w :
  (∀ b, pkl w !! cache_file dirname split = Some b →
        load_roidb dumps loads dirname split image_indexes w
        = (Ok (loads b), with_cache_dir w dirname))
  ∧ ((∀ r, loads (dumps r) = r) →
     ∀ roidb w',
       pkl w !! cache_file dirname split = None →
       load_roidb dumps loads dirname split image_indexes w = (Ok roidb, w') →
       ∀ image_indexes',
         load_roidb dumps loads dirname split image_indexes' w' = (Ok roidb, w')).
Proof.
  split; [intros b Hb; by apply load_roidb_hit|].
  intros Hround roidb w' Hmiss Hload image_indexes'.
  rewrite load_roidb_miss in Hload by done.
  apply assemble_Ok in Hload as (st0 & st1 & w1 & st2 & refs & _ & Hlab & _ & _ & ->).
  assert (same_files (with_cache_dir w dirname) w1) as (_ & Hdirs & _ & _).
  { by eapply label_calls_files. }
  erewrite load_roidb_hit by (simpl; apply lookup_insert_eq).
  rewrite Hround. f_equal. apply with_cache_dir_id. simpl. rewrite Hdirs.
  apply with_cache_dir_elem.
Qed.

(** ** A call that names an image absent from the dictionaries *)

Lemma label_box_total st im_name boxes pids box index w :
  name_to_boxes st !! im_name = Some boxes →
  name_to_pids st !! im_name = Some pids →
  length pids = length boxes →
  fits_int32 index →
  ∃ st' w', label_box st im_name box index w = (Ok st', w').
Proof.
  intros Hb Hp Hlen Hfit.
  destruct (find_box boxes box 0) as [i|] eqn:Hfind.
  - apply find_box_first in Hfind.
    pose proof (first_match_lt _ _ _ Hfind) as Hi. rewrite <- Hlen in Hi.
    unfold label_box, getitem. rewrite Hb, Hp.
    unfold bind at 1. unfold ret at 1. unfold bind at 1. unfold ret at 1.
    erewrite bind_step by (by apply set_box_pid_matched). by do 2 eexists.
  - apply find_box_None in Hfind. do 2 eexists. by eapply label_box_unmatched.
Qed.

Lemma label_box_keeps st im_name box index w st' w' :
  label_box st im_name box index w = (Ok st', w') →
  store_wf st →
  name_to_boxes st' = name_to_boxes st ∧ store_wf st'.
Proof.
  intros (boxes & pids & Hb & Hp & Hcase)%label_box_Ok Hwf.
  destruct Hcase as [(i & Hfm & Hi & Hfit & -> & ->)|(Hno & -> & ->)]; [|done].
  split; [done|]. intros name. simpl. pose proof (Hwf name) as Hn.
  rewrite lookup_insert. case_decide as Heq; [subst name|done].
  rewrite Hb. rewrite Hb, Hp in Hn. by rewrite length_insert.
Qed.


Lemma label_split_calls dirname split st w :
  (if decide (split = "train")
   then bind (λ w, (Ok (Train (mat w dirname)), w)) (λ train, label_train train 0 st)
   else bind (λ w, (Ok (TestG50 (mat w dirname)), w)) (λ test, label_test test 0 st)) w
  = label_calls (protocol_calls (mat w dirname) split) st w.
Proof.
  unfold protocol_calls, bind. case_decide.
  - apply label_train_calls.
  - apply label_test_calls.
Qed.


(** ** load_image_indexes *)



(** ** register_cuhk_sysu *)




(** * Further properties of the module *)

(** ** When the construction of the records succeeds and how it fails *)

Lemma image_path_at_world dirname image_indexes i w r w' :
  image_path_at dirname image_indexes i w = (r, w') → w' = w.
Proof.
  unfold image_path_at. destruct (image_indexes !! i); [|by intros [= _ <-]].
  case_decide; by intros [= _ <-].
Qed.

Lemma construct_world dirname image_indexes i rest st acc w r w' :
  construct dirname image_indexes i rest st acc w = (r, w') → w' = w.
Proof.
  revert i st acc. induction rest as [|name rest IH]; intros i st acc; simpl.
  - by intros [= _ <-].
  - unfold getitem.
    destruct (name_to_boxes st !! name) as [boxes|]; [|by intros [= _ <-]].
    unfold bind at 1. unfold ret at 1.
    destruct (name_to_pids st !! name) as [pids|]; [|by intros [= _ <-]].
    unfold bind at 1. unfold ret at 1. unfold bind at 1.
    destruct (image_path_at dirname image_indexes i w) as [[p|e] w1] eqn:Hp;
      apply image_path_at_world in Hp as ->; [|by intros [= _ <-]].
    unfold bind at 1. unfold Image_open_size at 1.
    destruct (img w !! p) as [size|]; [|by intros [= _ <-]].
    unfold bind at 1.
    destruct (image_path_at dirname image_indexes i w) as [[p'|e] w1] eqn:Hp';
      apply image_path_at_world in Hp' as ->; [|by intros [= _ <-]].
    apply IH.
Qed.

Lemma construct_step dirname image_indexes pre name rest st acc w boxes pids size :
  image_indexes = pre ++ name :: rest →
  name_to_boxes st !! name = Some boxes →
  name_to_pids st !! name = Some pids →
  img w !! join (data_path dirname) name = Some size →
  construct dirname image_indexes (length pre) (name :: rest) st acc w
  = construct dirname image_indexes (length (pre ++ [name])) rest
      (mkStore (<[name := add_corner <$> boxes]> (name_to_boxes st)) (name_to_pids st))
      (acc ++ [mkRef name (join (data_path dirname) name) size.2 size.1]) w.
Proof.
  intros Hidx Hb Hp Hsize. simpl. unfold getitem. rewrite Hb.
  unfold bind at 1. unfold ret at 1. simpl. rewrite Hp.
  unfold bind at 1. unfold ret at 1.
  assert (image_indexes !! length pre = Some name) as Hlook.
  { rewrite Hidx. by rewrite list_lookup_middle. }
  unfold bind at 1. rewrite (image_path_at_lookup _ _ _ _ _ Hlook).
  rewrite decide_True by (by eexists).
  unfold bind at 1. unfold Image_open_size at 1. rewrite Hsize.
  unfold bind at 1. rewrite (image_path_at_lookup _ _ _ _ _ Hlook).
  rewrite decide_True by (by eexists).
  by replace (S (length pre)) with (length (pre ++ [name]))
    by (rewrite length_app; simpl; lia).
Qed.


Lemma construct_unlisted dirname image_indexes pre good bad post st acc w :
  image_indexes = pre ++ good ++ bad :: post →
  Forall (λ name, is_Some (name_to_boxes st !! name)
                  ∧ is_Some (name_to_pids st !! name)
                  ∧ is_Some (img w !! join (data_path dirname) name)) good →
  name_to_boxes st !! bad = None →
  construct dirname image_indexes (length pre) (good ++ bad :: post) st acc w
  = (Raise (KeyError bad), w).
Proof.
  revert pre st acc. induction good as [|name good IH]; intros pre st acc Hidx Hall Hbad.
  - simpl. unfold getitem. by rewrite Hbad.
  - apply Forall_cons in Hall as [([boxes Hb] & [pids Hp] & [size Hsize]) Hall].
    simpl app. erewrite construct_step by done.
    apply IH; [by rewrite <- app_assoc| |].
    + eapply Forall_impl; [exact Hall|]. simpl. intros n (Hn1 & Hn2 & Hn3).
      split; [|done]. rewrite lookup_insert. case_decide; [by eexists | done].
    + simpl. rewrite lookup_insert_ne; [done|]. intros ->. congruence.
Qed.

Lemma construct_no_file dirname image_indexes pre good bad post st acc w :
  image_indexes = pre ++ good ++ bad :: post →
  Forall (λ name, is_Some (name_to_boxes st !! name)
                  ∧ is_Some (name_to_pids st !! name)
                  ∧ is_Some (img w !! join (data_path dirname) name)) good →
  is_Some (name_to_boxes st !! bad) →
  is_Some (name_to_pids st !! bad) →
  img w !! join (data_path dirname) bad = None →
  construct dirname image_indexes (length pre) (good ++ bad :: post) st acc w
  = (Raise (AssertionError
              ("Path does not exist: " +:+ join (data_path dirname) bad)), w).
Proof.
  revert pre st acc.
  induction good as [|name good IH]; intros pre st acc Hidx Hall [bb Hbb] [bp Hbp] Hfile.
  - simpl. unfold getitem. rewrite Hbb.
    unfold bind at 1. unfold ret at 1. simpl. rewrite Hbp.
    unfold bind at 1. unfold ret at 1.
    assert (image_indexes !! length pre = Some bad) as Hlook.
    { rewrite Hidx. simpl. by rewrite list_lookup_middle. }
    unfold bind at 1. rewrite (image_path_at_lookup _ _ _ _ _ Hlook).
    rewrite decide_False; [done|]. rewrite Hfile. by intros [? ?].
  - apply Forall_cons in Hall as [([boxes Hb] & [pids Hp] & [size Hsize]) Hall].
    simpl app. erewrite construct_step by done.
    apply IH; [by rewrite <- app_assoc| | | |done].
    + eapply Forall_impl; [exact Hall|]. simpl. intros n (Hn1 & Hn2 & Hn3).
      split; [|done]. rewrite lookup_insert. case_decide; [by eexists | done].
    + simpl. rewrite lookup_insert. case_decide; by eexists.
    + simpl. by eexists.
Qed.

(** ** When the labelling succeeds *)

Lemma label_calls_total calls st w :
  store_wf st →
  Forall (λ c, is_Some (name_to_boxes st !! c.1.1) ∧ fits_int32 c.2) calls →
  ∃ st' w', label_calls calls st w = (Ok st', w').
Proof.
  revert st w. induction calls as [|[[n b] idx] calls IH]; intros st w Hwf Hall.
  - by eexists _, _.
  - apply Forall_cons in Hall as [[[boxes Hb] Hfit] Hall]. simpl in *.
    pose proof (Hwf n) as Hn. rewrite Hb in Hn.
    destruct (name_to_pids st !! n) as [pids|] eqn:Hp; [|done].
    destruct (label_box_total st n boxes pids (astype_int32 b) idx w Hb Hp Hn Hfit)
      as (st1 & w1 & Hbox).
    destruct (label_box_keeps _ _ _ _ _ _ _ Hbox Hwf) as [Hb1 Hwf1].
    erewrite bind_step by exact Hbox. apply IH; [done|]. by rewrite Hb1.
Qed.

Lemma assemble_run dirname split image_indexes w st0 st1 w1 st2 refs :
  index_boxes (Img (mat w dirname)) (mkStore ∅ ∅) w = (Ok st0, w) →
  label_calls (protocol_calls (mat w dirname) split) st0 w = (Ok st1, w1) →
  construct dirname image_indexes 0 image_indexes st1 [] w1 = (Ok (st2, refs), w1) →
  assemble dumps dirname split image_indexes w
  = (Ok (deref st2 <$> refs),
     with_cache dumps w1 (cache_file dirname split) (deref st2 <$> refs)).
Proof.
  intros Hidx Hlab Hcon. unfold assemble. unfold bind at 1.
  erewrite bind_step by exact Hidx.
  erewrite bind_step by (rewrite label_split_calls; exact Hlab).
  erewrite bind_step by exact Hcon. done.
Qed.

Lemma index_boxes_lookup all_imgs w st0 :
  index_boxes all_imgs (mkStore ∅ ∅) w = (Ok st0, w) →
  ∀ n, name_to_boxes st0 !! n = kept <$> listed all_imgs n.
Proof.
  intros (_ & Hb & _)%index_boxes_Ok n. rewrite Hb. simpl.
  destruct (listed all_imgs n); [done | by rewrite lookup_empty].
Qed.

Lemma store_wf_is_Some st name :
  store_wf st → is_Some (name_to_boxes st !! name) → is_Some (name_to_pids st !! name).
Proof.
  intros Hwf [boxes Hb]. pose proof (Hwf name) as Hn. rewrite Hb in Hn.
  destruct (name_to_pids st !! name); [by eexists | done].
Qed.

Lemma bind_Raise_inv {A B} (m : M A) (k : A → M B) w e w' :
  bind m k w = (Raise e, w') →
  m w = (Raise e, w') ∨ ∃ a w1, m w = (Ok a, w1) ∧ k a w1 = (Raise e, w').
Proof.
  unfold bind. destruct (m w) as [[a|e1] w1]; [by eauto|]. intros [= -> ->]. by left.
Qed.

(** The load up to the construction of the records, when the listing
    and the calls raise nothing. *)
Lemma load_roidb_to_construct dirname split image_indexes w :
  pkl w !! cache_file dirname split = None →
  Forall (λ e, filter valid e.2 ≠ []) (Img (mat w dirname)) →
  Forall (λ c, is_Some (listed (Img (mat w dirname)) c.1.1) ∧ fits_int32 c.2)
         (protocol_calls (mat w dirname) split) →
  ∃ st1 w1,
    same_files (with_cache_dir w dirname) w1
    ∧ store_wf st1
    ∧ (∀ n, name_to_boxes st1 !! n = kept <$> listed (Img (mat w dirname)) n)
    ∧ load_roidb dumps loads dirname split image_indexes w
      = bind (construct dirname image_indexes 0 image_indexes st1 [])
          (λ p, bind (pickle dumps (deref p.1 <$> p.2) (cache_file dirname split))
             (λ _, bind (log (Info (cache_file dirname split)))
                (λ _, ret (deref p.1 <$> p.2)))) w1.
Proof.
  intros Hmiss Hvalid Hcalls. rewrite load_roidb_miss by done.
  destruct (with_cache_dir_same w dirname) as (Hmat & _).
  set (wd := with_cache_dir w dirname) in *.
  destruct (index_boxes_total _ (mkStore ∅ ∅) wd Hvalid) as (st0 & Hidx).
  pose proof (index_boxes_wf _ _ _ _ _ Hidx store_wf_empty) as Hwf0.
  pose proof (index_boxes_lookup _ _ _ Hidx) as Hb0.
  destruct (label_calls_total (protocol_calls (mat w dirname) split) st0 wd Hwf0)
    as (st1 & w1 & Hlab).
  { eapply Forall_impl; [exact Hcalls|]. simpl. intros c [[raw Hc] Hfit].
    split; [|done]. rewrite Hb0, Hc. by eexists. }
  destruct (label_calls_Ok _ _ _ _ _ Hlab Hwf0) as (Hb1 & Hwf1 & Hfiles & _).
  exists st1, w1. split; [done|]. split; [done|].
  split; [intros n; by rewrite Hb1|].
  unfold assemble. unfold bind at 1. rewrite Hmat.
  erewrite bind_step by exact Hidx.
  by erewrite bind_step by (rewrite label_split_calls, Hmat; exact Hlab).
Qed.


(** X2. With no cache file, a listing in which every image keeps a
    box and calls that name listed images with indices that fit: if
    the index list names an image that the listing does not have,
    after names that are listed and have their files, [load_roidb]
    ends with the missing-key error of that name and writes no cache
    file. *)
Theorem unlisted_index_raises dirname split image_indexes w good bad post :
  pkl w !! cache_file dirname split = None →
  Forall (λ e, filter valid e.2 ≠ []) (Img (mat w dirname)) →
  Forall (λ c, is_Some (listed (Img (mat w dirname)) c.1.1) ∧ fits_int32 c.2)
         (protocol_calls (mat w dirname) split) →
  image_indexes = good ++ bad :: post →
  Forall (has_image w dirname) good →
  listed (Img (mat w dirname)) bad = None →
  ∃ w', load_roidb dumps loads dirname split image_indexes w = (Raise (KeyError bad), w')
        ∧ pkl w' = pkl w.
Proof.
  intros Hmiss Hvalid Hcalls Hidx Hgood Hbad.
  destruct (with_cache_dir_same w dirname) as (_ & Hpkl & Himg & _).
  destruct (load_roidb_to_construct dirname split image_indexes w Hmiss Hvalid Hcalls)
    as (st1 & w1 & (_ & _ & Hpkl1 & Himg1) & Hwf1 & Hb1 & ->).
  exists w1. split; [|by rewrite Hpkl1].
  erewrite bind_Raise; [done|].
  pose proof (construct_unlisted dirname image_indexes [] good bad post st1 [] w1) as Hc.
  simpl in Hc. rewrite <- Hidx in Hc. apply Hc; [done| |].
  - eapply Forall_impl; [exact Hgood|]. simpl. intros n [Hn1 Hn2].
    assert (is_Some (name_to_boxes st1 !! n)) as Hs by (by rewrite Hb1, fmap_is_Some).
    split; [done|]. split; [by apply store_wf_is_Some|]. by rewrite Himg1, Himg.
  - by rewrite Hb1, Hbad.
Qed.

(** X3. Under the same conditions, if a name of the index list is
    listed but has no image file, after names that are listed and have
    their files, [load_roidb] ends with the assertion error of
    [image_path_at] for that path and writes no cache file. *)
Theorem missing_image_file_raises dirname split image_indexes w good bad post :
  pkl w !! cache_file dirname split = None →
  Forall (λ e, filter valid e.2 ≠ []) (Img (mat w dirname)) →
  Forall (λ c, is_Some (listed (Img (mat w dirname)) c.1.1) ∧ fits_int32 c.2)
         (protocol_calls (mat w dirname) split) →
  image_indexes = good ++ bad :: post →
  Forall (has_image w dirname) good →
  is_Some (listed (Img (mat w dirname)) bad) →
  img w !! join (data_path dirname) bad = None →
  ∃ w', load_roidb dumps loads dirname split image_indexes w
        = (Raise (AssertionError
                    ("Path does not exist: " +:+ join (data_path dirname) bad)), w')
        ∧ pkl w' = pkl w.
Proof.
  intros Hmiss Hvalid Hcalls Hidx Hgood Hlisted Hfile.
  destruct (with_cache_dir_same w dirname) as (_ & Hpkl & Himg & _).
  destruct (load_roidb_to_construct dirname split image_indexes w Hmiss Hvalid Hcalls)
    as (st1 & w1 & (_ & _ & Hpkl1 & Himg1) & Hwf1 & Hb1 & ->).
  exists w1. split; [|by rewrite Hpkl1].
  assert (is_Some (name_to_boxes st1 !! bad)) as Hs by (by rewrite Hb1, fmap_is_Some).
  erewrite bind_Raise; [done|].
  pose proof (construct_no_file dirname image_indexes [] good bad post st1 [] w1) as Hc.
  simpl in Hc. rewrite <- Hidx in Hc. apply Hc; [done| |done| |].
  - eapply Forall_impl; [exact Hgood|]. simpl. intros n [Hn1 Hn2].
    assert (is_Some (name_to_boxes st1 !! n)) as Hsn by (by rewrite Hb1, fmap_is_Some).
    split; [done|]. split; [by apply store_wf_is_Some|]. by rewrite Himg1, Himg.
  - by apply store_wf_is_Some.
  - by rewrite Himg1, Himg.
Qed.

(** ** What a load leaves in the world *)

Lemma label_calls_log all_imgs calls st w st' w' :
  label_calls calls st w = (Ok st', w') →
  (∀ n, name_to_boxes st !! n = kept <$> listed all_imgs n) →
  logged w' = logged w ++ warnings_of all_imgs calls.
Proof.
  revert st w. induction calls as [|[[n b] idx] calls IH]; intros st w; simpl.
  - intros [= _ <-] _. unfold warnings_of. simpl. by rewrite app_nil_r.
  - intros (st1 & w1 & Hbox & Hrest)%bind_Ok Hb.
    apply label_box_Ok in Hbox as (boxes & pids & Hboxes & Hpids & Hcase).
    assert (default [] (kept <$> listed all_imgs n) = boxes) as Hdef.
    { rewrite <- Hb, Hboxes. done. }
    destruct Hcase as [(i & [Hfm _] & _ & _ & -> & ->)|(Hno & -> & ->)].
    + rewrite (IH _ _ Hrest) by done. unfold warnings_of.
      rewrite filter_cons_False; [done|]. unfold unmatched. simpl. rewrite Hdef.
      intros Hnot. apply Hnot. by eapply list_elem_of_lookup_2.
    + rewrite (IH _ _ Hrest) by done. unfold warnings_of.
      rewrite filter_cons_True by (unfold unmatched; simpl; by rewrite Hdef).
      simpl. by rewrite <- app_assoc.
Qed.


Lemma failed_load_files dirname split image_indexes w e w' :
  load_roidb dumps loads dirname split image_indexes w = (Raise e, w') →
  same_files (with_cache_dir w dirname) w'.
Proof.
  intros Hload.
  destruct (pkl w !! cache_file dirname split) as [b|] eqn:Hfile.
  { by rewrite (load_roidb_hit _ _ _ _ _ Hfile) in Hload. }
  rewrite load_roidb_miss in Hload by done.
  set (wd := with_cache_dir w dirname) in *.
  unfold assemble in Hload.
  apply bind_Raise_inv in Hload as [Hload|(all_imgs & w0 & [= <- <-] & Hload)]; [done|].
  apply bind_Raise_inv in Hload as [Hload|(st0 & w0 & Hidx & Hload)].
  { apply index_boxes_world in Hload as ->. apply same_files_refl. }
  apply index_boxes_world in Hidx as ->.
  apply bind_Raise_inv in Hload as [Hload|(st1 & w1 & Hlab & Hload)].
  { rewrite label_split_calls in Hload. by eapply label_calls_files. }
  rewrite label_split_calls in Hlab. apply label_calls_files in Hlab.
  apply bind_Raise_inv in Hload as [Hload|(p & w2 & Hcon & Hload)].
  { by apply construct_world in Hload as ->. }
  unfold bind, pickle, log, ret in Hload. done.
Qed.


(** X4. A load that finds no cache file and returns records writes
    the pickle of these records as the cache file of the split, leaves
    every other pickle file, the image files and the annotation tables
    as they are, has made the cache directory, and adds to the log one
    warning for each call of the protocol whose int32 box is not among
    the boxes kept for its image, in the order of the protocol,
    followed by the note on the cache file. *)
Theorem load_roidb_writes_cache dirname split image_indexes w roidb w' :
  pkl w !! cache_file dirname split = None →
  load_roidb dumps loads dirname split image_indexes w = (Ok roidb, w') →
  pkl w' = <[cache_file dirname split := dumps roidb]> (pkl w)
  ∧ img w' = img w
  ∧ mat w' = mat w
  ∧ join dirname "cache" ∈ dirs w'
  ∧ logged w'
    = logged w
      ++ warnings_of (Img (mat w dirname)) (protocol_calls (mat w dirname) split)
      ++ [Info (cache_file dirname split)].
Proof.
  intros Hmiss Hload. rewrite load_roidb_miss in Hload by done.
  destruct (with_cache_dir_same w dirname) as (Hmat & Hpkl & Himg & Hlog).
  pose proof (with_cache_dir_elem w dirname) as Hdir.
  apply assemble_Ok in Hload as (st0 & st1 & w1 & st2 & refs & Hidx & Hlab & _ & _ & ->).
  rewrite Hmat in Hidx, Hlab.
  pose proof (index_boxes_lookup _ _ _ Hidx) as Hb0.
  pose proof (label_calls_files _ _ _ _ _ Hlab) as (Hmat1 & Hdirs1 & Hpkl1 & Himg1).
  pose proof (label_calls_log _ _ _ _ _ _ Hlab Hb0) as Hlog1.
  simpl. rewrite Hpkl1, Hpkl, Himg1, Himg, Hmat1, Hmat, Hdirs1, Hlog1, Hlog.
  by rewrite <- app_assoc.
Qed.

(** X5. A load that ends with an exception, whatever the exception,
    leaves the pickle files, the image files and the annotation tables
    as they are: no cache file is written. *)
Theorem failed_load_keeps_files dirname split image_indexes w e w' :
  load_roidb dumps loads dirname split image_indexes w = (Raise e, w') →
  pkl w' = pkl w ∧ img w' = img w ∧ mat w' = mat w
  ∧ dirs w' = dirs (with_cache_dir w dirname).
Proof.
  intros (Hm & Hd & Hp & Hi)%failed_load_files.
  destruct (with_cache_dir_same w dirname) as (Hmat & Hpkl & Himg & _).
  by rewrite Hm, Hd, Hp, Hi.
Qed.

(** ** The cache files of two splits *)







(** ** The records of an index list that may repeat a name *)

Lemma convert_all_count names (m : gmap string (list Row)) name :
  convert_all names m !! name
  = Nat.iter (occurrences name names) (fmap add_corner) <$> m !! name.
Proof.
  revert m. induction names as [|n names IH]; intros m.
  - simpl. by destruct (m !! name).
  - change (convert_all (n :: names) m)
      with (convert_all names (alter (fmap add_corner) n m)).
    rewrite IH, lookup_alter. unfold occurrences.
    destruct (decide (n = name)) as [->|Hne].
    + rewrite filter_cons_True by done. simpl length.
      destruct (m !! name) as [bs|]; [|done]. simpl. f_equal.
      by rewrite <- Nat.iter_succ_r.
    + by rewrite filter_cons_False by done.
Qed.

Lemma length_iter_add_corner n (bs : list Row) :
  length (Nat.iter n (fmap add_corner) bs) = length bs.
Proof. induction n as [|n IH]; simpl; [done | by rewrite length_fmap]. Qed.

Lemma assembled_boxes_count dirname split image_indexes w roidb w' :
  pkl w !! cache_file dirname split = None →
  load_roidb dumps loads dirname split image_indexes w = (Ok roidb, w') →
  length roidb = length image_indexes
  ∧ ∀ k name, image_indexes !! k = Some name →
      ∃ raw size r,
        listed (Img (mat w dirname)) name = Some raw
        ∧ img w !! join (data_path dirname) name = Some size
        ∧ roidb !! k = Some r
        ∧ image r = join (data_path dirname) name
        ∧ width r = size.1 ∧ height r = size.2
        ∧ gt_boxes r
          = Nat.iter (occurrences name image_indexes) (fmap add_corner) (kept raw)
        ∧ length (gt_pids r) = length (kept raw).
Proof.
  intros Hmiss Hload.
  destruct (assembled_record _ _ _ _ _ _ Hmiss Hload) as (Hlen & m & Hm & Hrec).
  split; [done|]. intros k name Hk.
  destruct (Hrec k name Hk)
    as (raw & size & r & Hraw & Hsize & Hr & Him & Hw & Hh & Hboxes & Hl & _).
  exists raw, size, r. repeat (split; [done|]). split; [|done].
  rewrite convert_all_count, Hm, Hraw in Hboxes. simpl in Hboxes. congruence.
Qed.

Lemma length_kept raw : length (kept raw) = length (filter valid raw).
Proof. unfold kept. by rewrite length_fmap. Qed.

(** X7. The roidb that a load assembles has one record per entry of
    the index list, in the order of the list: the record at a position
    has the path of the image named there, the width and height that
    the image file declares, and as many boxes as identities, namely
    the number of valid boxes of the image's row in the listing. *)
Theorem assembled_roidb_shape dirname split image_indexes w roidb w' :
  pkl w !! cache_file dirname split = None →
  load_roidb dumps loads dirname split image_indexes w = (Ok roidb, w') →
  length roidb = length image_indexes
  ∧ ∀ k name, image_indexes !! k = Some name →
      ∃ raw size r,
        listed (Img (mat w dirname)) name = Some raw
        ∧ img w !! join (data_path dirname) name = Some size
        ∧ roidb !! k = Some r
        ∧ image r = join (data_path dirname) name
        ∧ width r = size.1 ∧ height r = size.2
        ∧ length (gt_boxes r) = length (filter valid raw)
        ∧ length (gt_pids r) = length (filter valid raw).
Proof.
  intros Hmiss Hload.
  destruct (assembled_boxes_count _ _ _ _ _ _ Hmiss Hload) as (Hlen & Hrec).
  split; [done|]. intros k name Hk.
  destruct (Hrec k name Hk)
    as (raw & size & r & Hraw & Hsize & Hr & Him & Hw & Hh & Hboxes & Hl).
  exists raw, size, r. repeat (split; [done|]).
  rewrite Hboxes, length_iter_add_corner, Hl. by rewrite length_kept.
Qed.

(** X8. The records of an image share the image's box array, which
    lines 143-144 convert in place each time the index list names the
    image: the boxes of every record of an image are the boxes kept
    for it with the corner addition applied as many times as the name
    occurs in the index list (once when the list does not repeat it). *)
Theorem assembled_boxes_repeated dirname split image_indexes w roidb w' :
  pkl w !! cache_file dirname split = None →
  load_roidb dumps loads dirname split image_indexes w = (Ok roidb, w') →
  ∀ k name, image_indexes !! k = Some name →
    ∃ raw r,
      listed (Img (mat w dirname)) name = Some raw
      ∧ roidb !! k = Some r
      ∧ gt_boxes r
        = Nat.iter (occurrences name image_indexes) (fmap add_corner) (kept raw).
Proof.
  intros Hmiss Hload k name Hk.
  destruct (assembled_boxes_count _ _ _ _ _ _ Hmiss Hload) as (_ & Hrec).
  destruct (Hrec k name Hk) as (raw & size & r & Hraw & _ & Hr & _ & _ & _ & Hboxes & _).
  by exists raw, r.
Qed.

Lemma listed_last l1 name raw l2 :
  name ∉ l2.*1 → listed (l1 ++ (name, raw) :: l2) name = Some raw.
Proof.
  intros Hnot.
  assert (listed l2 name = None) as Hl2.
  { induction l2 as [|[n b] l2 IH]; [done|]. simpl in *.
    apply not_elem_of_cons in Hnot as [Hne Hnot]. rewrite IH by done.
    by rewrite decide_False. }
  induction l1 as [|[n b] l1 IH]; simpl.
  - rewrite Hl2. by rewrite decide_True.
  - by rewrite IH.
Qed.

(** X9. When the listing has several rows for one image name, the
    record of the image is built from the last of them: the boxes are
    the valid boxes of that row (cast and converted), and the earlier
    rows leave nothing. *)
Theorem last_listed_row_wins dirname split image_indexes w roidb w' l1 name raw l2 :
  pkl w !! cache_file dirname split = None →
  load_roidb dumps loads dirname split image_indexes w = (Ok roidb, w') →
  Img (mat w dirname) = l1 ++ (name, raw) :: l2 →
  name ∉ l2.*1 →
  ∀ k, image_indexes !! k = Some name →
    ∃ r, roidb !! k = Some r
         ∧ gt_boxes r
           = Nat.iter (occurrences name image_indexes) (fmap add_corner) (kept raw)
         ∧ length (gt_pids r) = length (filter valid raw).
Proof.
  intros Hmiss Hload Himg Hnot k Hk.
  destruct (assembled_boxes_count _ _ _ _ _ _ Hmiss Hload) as (_ & Hrec).
  destruct (Hrec k name Hk) as (raw' & size & r & Hraw & _ & Hr & _ & _ & _ & Hboxes & Hl).
  rewrite Himg, listed_last in Hraw by done. injection Hraw as <-.
  exists r. split; [done|]. split; [done|]. by rewrite Hl, length_kept.
Qed.

(** ** Identities of the test split *)

Lemma elem_of_test_calls test start (c : string * Row * Z) :
  c ∈ test_calls test start
  ↔ ∃ (k : nat) item,
      test !! k = Some item ∧ c.2 = start + Z.of_nat k
      ∧ (c.1 = Query item ∨ c.1 ∈ gallery_reached (Gallery item)).
Proof.
  revert start. induction test as [|item rest IH]; intros start; simpl.
  - split; [by intros ?%elem_of_nil | by intros (k & s & ? & _)].
  - rewrite elem_of_cons, elem_of_app, IH, list_elem_of_fmap. split.
    + intros [->|[(s & -> & Hs)|(k & item' & Hk & Heq & Hin)]].
      * exists 0%nat, item. simpl. split; [done|]. split; [lia | by left].
      * exists 0%nat, item. simpl. split; [done|]. split; [lia | by right].
      * exists (S k), item'. simpl. split; [done|]. split; [lia | done].
    + intros ([|k] & item' & Hk & Heq & Hin); simpl in Hk.
      * injection Hk as <-. destruct c as [s idx]. simpl in *.
        replace idx with start by lia.
        destruct Hin as [->|Hin]; [by left|]. right. left. by exists s.
      * right. right. exists k, item'. split; [done|]. split; [lia | done].
Qed.

(** X10. In the roidb assembled for a split other than "train", every
    identity is an integer between -1 and M - 1, M being the number of
    queries of the test protocol, and it is -1 exactly when neither a
    query nor a gallery entry before the first empty box of its gallery
    names the image with a box that, as an int32 row, has its first
    occurrence in the image's box array at that position. *)
Theorem test_pids_range dirname split image_indexes w roidb w' :
  split ≠ "train" →
  pkl w !! cache_file dirname split = None →
  load_roidb dumps loads dirname split image_indexes w = (Ok roidb, w') →
  ∀ k r, roidb !! k = Some r →
    ∃ name raw,
      image_indexes !! k = Some name
      ∧ listed (Img (mat w dirname)) name = Some raw
      ∧ length (gt_pids r) = length (kept raw)
      ∧ ∀ i pid, gt_pids r !! i = Some pid →
          -1 ≤ pid ≤ Z.of_nat (length (TestG50 (mat w dirname))) - 1
          ∧ (pid = -1 ↔
             ∀ (q : nat) item box,
               TestG50 (mat w dirname) !! q = Some item →
               (name, box) = Query item
               ∨ (name, box) ∈ gallery_reached (Gallery item) →
               ¬ first_match (kept raw) (astype_int32 box) i).
Proof.
  intros Hsplit Hmiss Hload k r Hr.
  destruct (assembled_record _ _ _ _ _ _ Hmiss Hload) as (Hlen & m & _ & Hrec).
  destruct (lookup_lt_is_Some_2 image_indexes k) as [name Hname].
  { rewrite <- Hlen. by eapply lookup_lt_Some. }
  destruct (Hrec k name Hname)
    as (raw & size & r' & Hraw & _ & Hr' & _ & _ & _ & _ & Hl & Hpid).
  rewrite Hr in Hr'. injection Hr' as <-.
  exists name, raw. split; [done|]. split; [done|]. split; [done|].
  intros i pid Hi.
  assert (i < length (kept raw))%nat as Hlt by (rewrite <- Hl; by eapply lookup_lt_Some).
  rewrite (Hpid i Hlt) in Hi. injection Hi as <-.
  unfold protocol_calls. rewrite decide_False by done.
  set (calls := test_calls (TestG50 (mat w dirname)) 0).
  destruct (matched_pid_cases (kept raw) name i calls (-1))
    as [[Heq Hall]|(c & Hin & Hhit & Heq)]; rewrite Heq.
  - split.
    { pose proof (Nat2Z.is_nonneg (length (TestG50 (mat w dirname)))). lia. }
    split; [|done]. intros _ q item box Hq Hin Hfm.
    rewrite Forall_forall in Hall.
    apply (Hall (name, box, Z.of_nat q)); [|by split].
    apply elem_of_test_calls. exists q, item. simpl. split; [done|]. split; [lia | done].
  - apply elem_of_test_calls in Hin as (q & item & Hq & Hc & Hin).
    pose proof (lookup_lt_Some _ _ _ Hq) as Hbound.
    split; [lia|]. split; [lia|].
    intros Hnone. exfalso. destruct c as [[n b] ci]. destruct Hhit as [Hn Hfm].
    simpl in *. subst n. by eapply Hnone.
Qed.

(** ** set_box_pid on a box that occurs *)

(** X11. When the box occurs in the array (and the identity array has
    the array's length and the identity fits 32 bits), [set_box_pid]
    writes the identity at the first position that holds the box and
    nowhere else, and logs nothing: a later copy of the same box keeps
    the identity it had. *)
Theorem set_box_pid_first_match boxes (box : Row) pids pid w :
  box ∈ boxes →
  length pids = length boxes →
  fits_int32 pid →
  ∃ i pids',
    first_match boxes box i
    ∧ set_box_pid boxes box pids pid w = (Ok pids', w)
    ∧ pids' !! i = Some pid
    ∧ length pids' = length pids
    ∧ ∀ j, j ≠ i → pids' !! j = pids !! j.
Proof.
  intros Hin Hlen Hfit.
  destruct (find_box boxes box 0) as [i|] eqn:Hfind.
  2:{ by apply find_box_None in Hfind. }
  apply find_box_first in Hfind.
  pose proof (first_match_lt _ _ _ Hfind) as Hi. rewrite <- Hlen in Hi.
  exists i, (<[i := pid]> pids). split; [done|].
  split; [by apply set_box_pid_matched|].
  split; [by apply list_lookup_insert_eq|].
  split; [by rewrite length_insert|].
  intros j Hj. by apply list_lookup_insert_ne.
Qed.

(** ** The constructor and load_cuhk_sysu_instances *)

Lemma load_image_indexes_world dirname split w r w' :
  load_image_indexes dirname split w = (r, w') → w' = w ∧ ∃ idx, r = Ok idx.
Proof.
  unfold load_image_indexes. case_decide; intros [= <- <-]; eauto.
Qed.

Lemma CUHK_SYSU_init_run dirname split w idx roidb w1 :
  load_image_indexes dirname split w = (Ok idx, w) →
  load_roidb dumps loads dirname split idx w = (Ok roidb, w1) →
  CUHK_SYSU_init dumps loads dirname split w
  = (Ok (mkCUHK_SYSU dirname split idx roidb
           (if decide (split = "test")
            then Some (probe_of dirname <$> TestG50 (mat w1 dirname))
            else None)), w1).
Proof.
  intros Hidx Hload. unfold CUHK_SYSU_init.
  erewrite bind_step by exact Hidx. erewrite bind_step by exact Hload.
  unfold bind, ret, load_probes. by case_decide.
Qed.

Lemma CUHK_SYSU_init_Raise dirname split w idx e w1 :
  load_image_indexes dirname split w = (Ok idx, w) →
  load_roidb dumps loads dirname split idx w = (Raise e, w1) →
  CUHK_SYSU_init dumps loads dirname split w = (Raise e, w1).
Proof.
  intros Hidx Hload. unfold CUHK_SYSU_init.
  erewrite bind_step by exact Hidx. by erewrite bind_Raise by exact Hload.
Qed.

Lemma gallery_dicts_Ok (roidb : list roi) i rest w :
  (i + length rest ≤ length roidb)%nat →
  gallery_dicts roidb i rest w = (Ok (zip_with dict_of (drop i roidb) rest), w).
Proof.
  revert i. induction rest as [|name rest IH]; intros i Hlen; simpl.
  - by destruct (drop i roidb).
  - simpl in Hlen. destruct (lookup_lt_is_Some_2 roidb i) as [r Hr]; [lia|].
    rewrite Hr. erewrite bind_step by (apply IH; lia).
    by rewrite (drop_S _ _ _ Hr).
Qed.

Lemma gallery_dicts_short (roidb : list roi) i rest w :
  (i ≤ length roidb)%nat →
  (length roidb < i + length rest)%nat →
  gallery_dicts roidb i rest w = (Raise IndexError, w).
Proof.
  revert i. induction rest as [|name rest IH]; intros i Hi Hlen; simpl in *.
  - lia.
  - destruct (roidb !! i) as [r|] eqn:Hr; [|done].
    apply lookup_lt_Some in Hr. by erewrite bind_Raise by (apply IH; lia).
Qed.

(** X12. When the cache file of the split exists,
    [load_cuhk_sysu_instances] pairs the cached records with the
    current index list by position, without comparing them: it returns
    one dictionary per index entry, built from the cached record at the
    same position, when the cache holds at least as many records as
    the index list has entries (records beyond are ignored), and ends
    with an index error when it holds fewer. *)
Theorem instances_from_cache dirname split w b idx :
  pkl w !! cache_file dirname split = Some b →
  load_image_indexes dirname split w = (Ok idx, w) →
  ((length idx ≤ length (loads b))%nat →
   load_cuhk_sysu_instances dumps loads dirname split w
   = (Ok (zip_with dict_of (loads b) idx), with_cache_dir w dirname))
  ∧ ((length (loads b) < length idx)%nat →
     load_cuhk_sysu_instances dumps loads dirname split w
     = (Raise IndexError, with_cache_dir w dirname)).
Proof.
  intros Hfile Hidx.
  pose proof (load_roidb_hit dirname split idx w b Hfile) as Hload.
  pose proof (CUHK_SYSU_init_run _ _ _ _ _ _ Hidx Hload) as Hinit.
  unfold load_cuhk_sysu_instances. erewrite bind_step by exact Hinit. simpl.
  split; intros Hlen.
  - by rewrite gallery_dicts_Ok by (simpl; lia).
  - by rewrite gallery_dicts_short by (simpl; lia).
Qed.

Lemma lookup_zip_with_dict_of (roidb : list roi) (idx : list string) k d :
  zip_with dict_of roidb idx !! k = Some d ↔
  ∃ r name, roidb !! k = Some r ∧ idx !! k = Some name ∧ d = dict_of r name.
Proof.
  rewrite lookup_zip_with_Some. split.
  - intros (r & name & -> & Hr & Hn). by exists r, name.
  - intros (r & name & Hr & Hn & ->). by exists r, name.
Qed.

(** X13. When there is no cache file, [load_cuhk_sysu_instances]
    succeeds exactly as [load_roidb] does on the split's index list
    and raises what it raises; on success there is one dictionary per
    index entry, in order, with the entry as image identifier, the
    image's path as file name, the size that the image file declares,
    and one annotation per valid box of the image's row in the
    listing, each of category 1 in the XYXY_ABS mode. *)
Theorem instances_assembled dirname split w idx :
  pkl w !! cache_file dirname split = None →
  load_image_indexes dirname split w = (Ok idx, w) →
  (∀ e w1, load_roidb dumps loads dirname split idx w = (Raise e, w1) →
           load_cuhk_sysu_instances dumps loads dirname split w = (Raise e, w1))
  ∧ ∀ roidb w1,
      load_roidb dumps loads dirname split idx w = (Ok roidb, w1) →
      load_cuhk_sysu_instances dumps loads dirname split w
      = (Ok (zip_with dict_of roidb idx), w1)
      ∧ length (zip_with dict_of roidb idx) = length idx
      ∧ ∀ k d, zip_with dict_of roidb idx !! k = Some d →
          ∃ name raw size,
            idx !! k = Some name
            ∧ listed (Img (mat w dirname)) name = Some raw
            ∧ img w !! join (data_path dirname) name = Some size
            ∧ image_id d = name
            ∧ file_name d = join (data_path dirname) name
            ∧ dict_width d = size.1 ∧ dict_height d = size.2
            ∧ length (annotations d) = length (filter valid raw)
            ∧ ∀ a, a ∈ annotations d → category_id a = 1 ∧ bbox_mode a = XYXY_ABS.
Proof.
  intros Hmiss Hidx. split.
  - intros e w1 Hload. unfold load_cuhk_sysu_instances.
    by erewrite bind_Raise by (by eapply CUHK_SYSU_init_Raise).
  - intros roidb w1 Hload.
    destruct (assembled_boxes_count _ _ _ _ _ _ Hmiss Hload) as (Hlen & Hrec).
    split; [|split].
    + pose proof (CUHK_SYSU_init_run _ _ _ _ _ _ Hidx Hload) as Hinit.
      unfold load_cuhk_sysu_instances. erewrite bind_step by exact Hinit. simpl.
      by rewrite gallery_dicts_Ok by (simpl; lia).
    + rewrite length_zip_with. lia.
    + intros k d (r & name & Hr & Hname & ->)%lookup_zip_with_dict_of.
      destruct (Hrec k name Hname)
        as (raw & size & r' & Hraw & Hsize & Hr' & Him & Hw & Hh & Hboxes & Hl).
      rewrite Hr in Hr'. injection Hr' as <-.
      exists name, raw, size. simpl. repeat (split; [done|]). split.
      * unfold instances_of. rewrite length_fmap, length_zip.
        rewrite Hboxes, length_iter_add_corner, Hl, length_kept. lia.
      * intros a (p & -> & _)%list_elem_of_fmap. done.
Qed.

Lemma load_roidb_Ok_mat dirname split image_indexes w roidb w' :
  load_roidb dumps loads dirname split image_indexes w = (Ok roidb, w') →
  mat w' = mat w.
Proof.
  intros Hload.
  destruct (with_cache_dir_same w dirname) as (Hmat & _).
  destruct (pkl w !! cache_file dirname split) as [b|] eqn:Hfile.
  - rewrite (load_roidb_hit _ _ _ _ _ Hfile) in Hload. by injection Hload as _ <-.
  - rewrite load_roidb_miss in Hload by done.
    apply assemble_Ok in Hload as (st0 & st1 & w1 & st2 & refs & _ & Hlab & _ & _ & ->).
    pose proof (label_calls_files _ _ _ _ _ Hlab) as (Hmat1 & _). simpl. congruence.
Qed.

Lemma CUHK_SYSU_init_Ok dirname split w self w' :
  CUHK_SYSU_init dumps loads dirname split w = (Ok self, w') →
  ∃ idx roidb,
    load_image_indexes dirname split w = (Ok idx, w)
    ∧ load_roidb dumps loads dirname split idx w = (Ok roidb, w')
    ∧ self = mkCUHK_SYSU dirname split idx roidb
               (if decide (split = "test")
                then Some (probe_of dirname <$> TestG50 (mat w dirname))
                else None).
Proof.
  intros Hinit.
  destruct (load_image_indexes dirname split w) as [ri wi] eqn:Hidx.
  destruct (load_image_indexes_world _ _ _ _ _ Hidx) as (-> & idx & ->).
  destruct (load_roidb dumps loads dirname split idx w) as [[roidb|e] w1] eqn:Hload.
  - rewrite (CUHK_SYSU_init_run _ _ _ _ _ _ Hidx Hload) in Hinit.
    injection Hinit as <- <-. exists idx, roidb.
    by rewrite (load_roidb_Ok_mat _ _ _ _ _ _ Hload).
  - by rewrite (CUHK_SYSU_init_Raise _ _ _ _ _ _ Hidx Hload) in Hinit.
Qed.

Lemma occurrences_not_elem name (names : list string) :
  name ∉ names → occurrences name names = 0%nat.
Proof.
  unfold occurrences. induction names as [|n names IH]; [done|].
  intros [Hne Hnot]%not_elem_of_cons. rewrite filter_cons_False by done. by apply IH.
Qed.

Lemma occurrences_NoDup name (names : list string) :
  NoDup names → name ∈ names → occurrences name names = 1%nat.
Proof.
  induction 1 as [|n names Hnot Hnd IH]; [by intros ?%elem_of_nil|].
  intros Hin. unfold occurrences in *. destruct (decide (n = name)) as [->|Hne].
  - rewrite filter_cons_True by done. simpl.
    pose proof (occurrences_not_elem name names Hnot) as H0.
    unfold occurrences in H0. by rewrite H0.
  - rewrite filter_cons_False by done. apply IH.
    apply elem_of_cons in Hin as [->|Hin]; done.
Qed.

(** X14. In the test split assembled from a pool that names no image
    twice: when the box of a query is among the boxes kept for the
    query's image and the image is in the pool, the probe that
    [load_probes] makes of the query has the path of the roidb record
    of that image, and its region is one of the boxes of that record. *)
Theorem probe_is_ground_truth dirname w self w' (q : nat) item :
  pkl w !! cache_file dirname "test" = None →
  CUHK_SYSU_init dumps loads dirname "test" w = (Ok self, w') →
  NoDup (pool (mat w dirname)) →
  TestG50 (mat w dirname) !! q = Some item →
  (Query item).1 ∈ pool (mat w dirname) →
  ¬ unmatched (Img (mat w dirname)) (Query item, Z.of_nat q) →
  ∃ probes k r,
    self_probes self = Some probes
    ∧ probes !! q = Some (probe_of dirname item)
    ∧ self_image_indexes self !! k = Some (Query item).1
    ∧ self_roidb self !! k = Some r
    ∧ image r = (probe_of dirname item).1
    ∧ (probe_of dirname item).2 ∈ gt_boxes r.
Proof.
  intros Hmiss Hinit Hnd Hq Hpool Hmatched.
  apply CUHK_SYSU_init_Ok in Hinit as (idx & roidb & Hidx & Hload & ->).
  assert (idx = pool (mat w dirname)) as ->.
  { unfold load_image_indexes in Hidx. rewrite decide_True in Hidx by done. congruence. }
  rewrite decide_True by done. simpl.
  apply list_elem_of_lookup_1 in Hpool as Hk. destruct Hk as [k Hk].
  destruct (assembled_boxes_count _ _ _ _ _ _ Hmiss Hload) as (_ & Hrec).
  destruct (Hrec k _ Hk) as (raw & size & r & Hraw & _ & Hr & Him & _ & _ & Hboxes & _).
  rewrite (occurrences_NoDup _ _ Hnd Hpool) in Hboxes. simpl in Hboxes.
  eexists _, k, r. split; [done|].
  split; [by rewrite list_lookup_fmap, Hq|].
  split; [done|]. split; [done|]. split; [done|].
  rewrite Hboxes. unfold probe_of. simpl. apply list_elem_of_fmap_2.
  unfold unmatched in Hmatched. simpl in Hmatched. rewrite Hraw in Hmatched.
  simpl in Hmatched. by apply dec_stable in Hmatched.
Qed.

(** X15. An object built without a cache file has as many roidb
    records as image indexes ([num_images]); its index list is the one
    [load_image_indexes] returns for the split, and it has probes, one
    per query of the test protocol and in the protocol's order, exactly
    when the split is "test". *)
Theorem constructor_fields dirname split w self w' :
  pkl w !! cache_file dirname split = None →
  CUHK_SYSU_init dumps loads dirname split w = (Ok self, w') →
  load_image_indexes dirname split w = (Ok (self_image_indexes self), w)
  ∧ num_images self = length (self_roidb self)
  ∧ (split = "test" →
     self_probes self = Some (probe_of dirname <$> TestG50 (mat w dirname)))
  ∧ (split ≠ "test" → self_probes self = None).
Proof.
  intros Hmiss Hinit.
  apply CUHK_SYSU_init_Ok in Hinit as (idx & roidb & Hidx & Hload & ->).
  destruct (assembled_boxes_count _ _ _ _ _ _ Hmiss Hload) as (Hlen & _).
  unfold num_images. simpl. split; [done|]. split; [done|].
  split; intros Hs; [by rewrite decide_True | by rewrite decide_False].
Qed.

(** ** A split that is neither "train" nor "test" *)

Lemma assemble_split_result dirname split1 split2 image_indexes w :
  split1 ≠ "train" → split2 ≠ "train" →
  (assemble dumps dirname split1 image_indexes w).1
  = (assemble dumps dirname split2 image_indexes w).1.
Proof.
  intros H1 H2. unfold assemble.
  rewrite !(bind_step (λ w1, (Ok (Img (mat w1 dirname)), w1)) _ w _ w eq_refl).
  destruct (index_boxes (Img (mat w dirname)) (mkStore ∅ ∅) w) as [[st0|e] w0] eqn:Hidx.
  2:{ by rewrite !(bind_Raise _ _ _ _ _ Hidx). }
  rewrite !(bind_step _ _ _ _ _ Hidx). rewrite !decide_False by done.
  destruct (bind (λ w1, (Ok (TestG50 (mat w1 dirname)), w1))
              (λ test, label_test test 0 st0) w0) as [[st1|e] w1] eqn:Hlab.
  2:{ by rewrite !(bind_Raise _ _ _ _ _ Hlab). }
  rewrite !(bind_step _ _ _ _ _ Hlab).
  destruct (construct dirname image_indexes 0 image_indexes st1 [] w1)
    as [[[st2 refs]|e] w2] eqn:Hcon.
  2:{ by rewrite !(bind_Raise _ _ _ _ _ Hcon). }
  by rewrite !(bind_step _ _ _ _ _ Hcon).
Qed.

(** X16. A split name other than "train" and "test" gets the index
    list of the train split from [load_image_indexes] and the
    identities of the test protocol from [load_roidb]: without cache
    files, the load returns for it what it returns for "test" on the
    same index list. *)
Theorem unknown_split_mixes_protocols dirname split image_indexes w :
  split ≠ "train" → split ≠ "test" →
  pkl w !! cache_file dirname split = None →
  pkl w !! cache_file dirname "test" = None →
  load_image_indexes dirname split w = load_image_indexes dirname "train" w
  ∧ (load_roidb dumps loads dirname split image_indexes w).1
    = (load_roidb dumps loads dirname "test" image_indexes w).1.
Proof.
  intros Htrain Htest Hmiss1 Hmiss2. split.
  - unfold load_image_indexes. by rewrite !decide_False by done.
  - rewrite !load_roidb_miss by done. by apply assemble_split_result.
Qed.

End Properties.

(** * The properties on the example inputs *)

(** The train split of [small]: the warning for the unmatched box of
    the second person is in the log, before the note on the cache. *)
Lemma small_train_load :
  load_roidb plain plain "./data" "train" ["a.jpg"; "b.jpg"] small
  = (Ok small_train_roidb, small_train_after)
  ∧ logged small_train_after
    = [Warning 1 (mkRow 1 1 3 3); Info "./data/cache/train_roidb.pkl"].
Proof. split; compute_done. Qed.






(** C5, witness: the train split of [small] loaded twice, and a load
    that finds the cache file whatever index list it is given. *)
Lemma cache_is_trusted_witness :
  (∀ r, plain (plain r) = r)
  ∧ pkl small !! cache_file "./data" "train" = None
  ∧ load_roidb plain plain "./data" "train" ["a.jpg"; "b.jpg"] small
    = (Ok small_train_roidb, small_train_after)
  ∧ load_roidb plain plain "./data" "train" ["a.jpg"; "b.jpg"] small_train_after
    = (Ok small_train_roidb, small_train_after)
  ∧ pkl small_train_after !! cache_file "./data" "train" = Some small_train_roidb
  ∧ load_roidb plain plain "./data" "train" ["b.jpg"] small_train_after
    = (Ok (plain small_train_roidb), with_cache_dir small_train_after "./data").
Proof.
  assert (∀ r, plain (plain r) = r) as H0 by done.
  assert (pkl small !! cache_file "./data" "train" = None) as H1 by compute_done.
  assert (load_roidb plain plain "./data" "train" ["a.jpg"; "b.jpg"] small
          = (Ok small_train_roidb, small_train_after)) as H2 by compute_done.
  assert (pkl small_train_after !! cache_file "./data" "train" = Some small_train_roidb)
    as H3 by compute_done.
  split; [exact H0|]. split; [exact H1|]. split; [exact H2|]. split; [|split; [exact H3|]].
  - exact (proj2 (cache_is_trusted plain plain "./data" "train" ["a.jpg"; "b.jpg"] small)
             H0 small_train_roidb small_train_after H1 H2 ["a.jpg"; "b.jpg"]).
  - exact (proj1 (cache_is_trusted plain plain "./data" "train" ["b.jpg"] small_train_after)
             small_train_roidb H3).
Defined.

(** C6, witness on the train split of [small]: two persons, identities
    0 and -1. *)
Lemma train_pids_range_witness :
  pkl small !! cache_file "./data" "train" = None
  ∧ load_roidb plain plain "./data" "train" ["a.jpg"; "b.jpg"] small
    = (Ok small_train_roidb, small_train_after)
  ∧ ∀ k r, small_train_roidb !! k = Some r →
      ∃ name raw,
        ["a.jpg"; "b.jpg"] !! k = Some name
        ∧ listed (Img (mat small "./data")) name = Some raw
        ∧ length (gt_pids r) = length (kept raw)
        ∧ ∀ i pid, gt_pids r !! i = Some pid →
            -1 ≤ pid ≤ Z.of_nat (length (Train (mat small "./data"))) - 1
            ∧ (pid = -1 ↔
               ∀ (index : nat) scenes box,
                 Train (mat small "./data") !! index = Some scenes →
                 (name, box) ∈ scenes →
                 ¬ first_match (kept raw) (astype_int32 box) i).
Proof.
  assert (pkl small !! cache_file "./data" "train" = None) as H1 by compute_done.
  assert (load_roidb plain plain "./data" "train" ["a.jpg"; "b.jpg"] small
          = (Ok small_train_roidb, small_train_after)) as H2 by compute_done.
  repeat (split; [assumption|]).
  exact (train_pids_range plain plain "./data" ["a.jpg"; "b.jpg"] small
           small_train_roidb small_train_after H1 H2).
Defined.



(** C8, witness: "z.jpg" of [no_box] has one box, of width 0. *)
Lemma no_valid_box_is_fatal_witness :
  pkl no_box !! cache_file "./data" "train" = None
  ∧ Exists (λ e, filter valid e.2 = []) (Img (mat no_box "./data"))
  ∧ ∃ im_name boxes,
      (im_name, boxes) ∈ Img (mat no_box "./data") ∧ filter valid boxes = [] ∧
      load_roidb plain plain "./data" "train" ["a.jpg"; "z.jpg"] no_box
      = (Raise (AssertionError (no_valid_boxes im_name)), with_cache_dir no_box "./data").
Proof.
  assert (pkl no_box !! cache_file "./data" "train" = None) as H1 by compute_done.
  assert (Exists (λ e, filter valid e.2 = []) (Img (mat no_box "./data"))) as H2
    by compute_done.
  repeat (split; [assumption|]).
  exact (no_valid_box_is_fatal plain plain "./data" "train" ["a.jpg"; "z.jpg"] no_box H1 H2).
Defined.



(** * The further properties on the example inputs *)


(** X2, witness: the pool of [stray_pool] names "b.jpg", which is not
    listed; the test split cannot be assembled. *)
Lemma unlisted_index_raises_witness :
  pkl stray_pool !! cache_file "./data" "test" = None
  ∧ Forall (λ e, filter valid e.2 ≠ []) (Img (mat stray_pool "./data"))
  ∧ Forall (λ c, is_Some (listed (Img (mat stray_pool "./data")) c.1.1) ∧ fits_int32 c.2)
           (protocol_calls (mat stray_pool "./data") "test")
  ∧ ["b.jpg"] = [] ++ "b.jpg" :: []
  ∧ Forall (has_image stray_pool "./data") []
  ∧ listed (Img (mat stray_pool "./data")) "b.jpg" = None
  ∧ ∃ w', load_roidb plain plain "./data" "test" ["b.jpg"] stray_pool
          = (Raise (KeyError "b.jpg"), w')
          ∧ pkl w' = pkl stray_pool.
Proof.
  assert (pkl stray_pool !! cache_file "./data" "test" = None) as H1 by compute_done.
  assert (Forall (λ e, filter valid e.2 ≠ []) (Img (mat stray_pool "./data"))) as H2
    by compute_done.
  assert (Forall (λ c, is_Some (listed (Img (mat stray_pool "./data")) c.1.1)
                       ∧ fits_int32 c.2)
            (protocol_calls (mat stray_pool "./data") "test")) as H3 by compute_done.
  assert (["b.jpg"] = [] ++ "b.jpg" :: []) as H4 by reflexivity.
  assert (Forall (has_image stray_pool "./data") []) as H5 by constructor.
  assert (listed (Img (mat stray_pool "./data")) "b.jpg" = None) as H6 by compute_done.
  repeat (split; [assumption|]).
  exact (unlisted_index_raises plain plain "./data" "test" ["b.jpg"] stray_pool
           [] "b.jpg" [] H1 H2 H3 H4 H5 H6).
Defined.

(** X3, witness: "a.jpg" of [stray_pool] is listed and has no file. *)
Lemma missing_image_file_raises_witness :
  pkl stray_pool !! cache_file "./data" "train" = None
  ∧ Forall (λ e, filter valid e.2 ≠ []) (Img (mat stray_pool "./data"))
  ∧ Forall (λ c, is_Some (listed (Img (mat stray_pool "./data")) c.1.1) ∧ fits_int32 c.2)
           (protocol_calls (mat stray_pool "./data") "train")
  ∧ ["a.jpg"] = [] ++ "a.jpg" :: []
  ∧ Forall (has_image stray_pool "./data") []
  ∧ is_Some (listed (Img (mat stray_pool "./data")) "a.jpg")
  ∧ img stray_pool !! join (data_path "./data") "a.jpg" = None
  ∧ ∃ w', load_roidb plain plain "./data" "train" ["a.jpg"] stray_pool
          = (Raise (AssertionError
                      ("Path does not exist: " +:+ join (data_path "./data") "a.jpg")), w')
          ∧ pkl w' = pkl stray_pool.
Proof.
  assert (pkl stray_pool !! cache_file "./data" "train" = None) as H1 by compute_done.
  assert (Forall (λ e, filter valid e.2 ≠ []) (Img (mat stray_pool "./data"))) as H2
    by compute_done.
  assert (Forall (λ c, is_Some (listed (Img (mat stray_pool "./data")) c.1.1)
                       ∧ fits_int32 c.2)
            (protocol_calls (mat stray_pool "./data") "train")) as H3 by compute_done.
  assert (["a.jpg"] = [] ++ "a.jpg" :: []) as H4 by reflexivity.
  assert (Forall (has_image stray_pool "./data") []) as H5 by constructor.
  assert (is_Some (listed (Img (mat stray_pool "./data")) "a.jpg")) as H6 by compute_done.
  assert (img stray_pool !! join (data_path "./data") "a.jpg" = None) as H7
    by compute_done.
  repeat (split; [assumption|]).
  exact (missing_image_file_raises plain plain "./data" "train" ["a.jpg"] stray_pool
           [] "a.jpg" [] H1 H2 H3 H4 H5 H6 H7).
Defined.

(** X4, witness: the train split of [small]. *)
Lemma load_roidb_writes_cache_witness :
  pkl small !! cache_file "./data" "train" = None
  ∧ load_roidb plain plain "./data" "train" ["a.jpg"; "b.jpg"] small
    = (Ok small_train_roidb, small_train_after)
  ∧ pkl small_train_after
    = <[cache_file "./data" "train" := plain small_train_roidb]> (pkl small)
  ∧ img small_train_after = img small
  ∧ mat small_train_after = mat small
  ∧ join "./data" "cache" ∈ dirs small_train_after
  ∧ logged small_train_after
    = logged small
      ++ warnings_of (Img (mat small "./data")) (protocol_calls (mat small "./data") "train")
      ++ [Info (cache_file "./data" "train")].
Proof.
  assert (pkl small !! cache_file "./data" "train" = None) as H1 by compute_done.
  assert (load_roidb plain plain "./data" "train" ["a.jpg"; "b.jpg"] small
          = (Ok small_train_roidb, small_train_after)) as H2 by compute_done.
  repeat (split; [assumption|]).
  exact (load_roidb_writes_cache plain plain "./data" "train" ["a.jpg"; "b.jpg"] small
           small_train_roidb small_train_after H1 H2).
Defined.

(** X5, witness: the load of [no_box] ends with an assertion error. *)
Lemma failed_load_keeps_files_witness :
  load_roidb plain plain "./data" "train" ["a.jpg"; "z.jpg"] no_box
  = (Raise (AssertionError (no_valid_boxes "z.jpg")), with_cache_dir no_box "./data")
  ∧ pkl (with_cache_dir no_box "./data") = pkl no_box
  ∧ img (with_cache_dir no_box "./data") = img no_box
  ∧ mat (with_cache_dir no_box "./data") = mat no_box
  ∧ dirs (with_cache_dir no_box "./data") = dirs (with_cache_dir no_box "./data").
Proof.
  assert (load_roidb plain plain "./data" "train" ["a.jpg"; "z.jpg"] no_box
          = (Raise (AssertionError (no_valid_boxes "z.jpg")),
             with_cache_dir no_box "./data")) as H1 by compute_done.
  split; [exact H1|].
  exact (failed_load_keeps_files plain plain "./data" "train" ["a.jpg"; "z.jpg"] no_box
           _ _ H1).
Defined.


(** X7, witness: the train split of [small]. *)
Lemma assembled_roidb_shape_witness :
  pkl small !! cache_file "./data" "train" = None
  ∧ load_roidb plain plain "./data" "train" ["a.jpg"; "b.jpg"] small
    = (Ok small_train_roidb, small_train_after)
  ∧ length small_train_roidb = length ["a.jpg"; "b.jpg"]
  ∧ ∀ k name, ["a.jpg"; "b.jpg"] !! k = Some name →
      ∃ raw size r,
        listed (Img (mat small "./data")) name = Some raw
        ∧ img small !! join (data_path "./data") name = Some size
        ∧ small_train_roidb !! k = Some r
        ∧ image r = join (data_path "./data") name
        ∧ width r = size.1 ∧ height r = size.2
        ∧ length (gt_boxes r) = length (filter valid raw)
        ∧ length (gt_pids r) = length (filter valid raw).
Proof.
  assert (pkl small !! cache_file "./data" "train" = None) as H1 by compute_done.
  assert (load_roidb plain plain "./data" "train" ["a.jpg"; "b.jpg"] small
          = (Ok small_train_roidb, small_train_after)) as H2 by compute_done.
  repeat (split; [assumption|]).
  exact (assembled_roidb_shape plain plain "./data" "train" ["a.jpg"; "b.jpg"] small
           small_train_roidb small_train_after H1 H2).
Defined.

(** X8, witness: an index list that names "t.jpg" twice; both records
    hold (5, 5, 20, 20), the box (5, 5, 10, 10) converted twice. *)
Lemma assembled_boxes_repeated_witness :
  pkl small !! cache_file "./data" "test" = None
  ∧ load_roidb plain plain "./data" "test" ["t.jpg"; "t.jpg"] small
    = (Ok twice_roidb, twice_after)
  ∧ ∀ k name, ["t.jpg"; "t.jpg"] !! k = Some name →
      ∃ raw r,
        listed (Img (mat small "./data")) name = Some raw
        ∧ twice_roidb !! k = Some r
        ∧ gt_boxes r
          = Nat.iter (occurrences name ["t.jpg"; "t.jpg"]) (fmap add_corner) (kept raw).
Proof.
  assert (pkl small !! cache_file "./data" "test" = None) as H1 by compute_done.
  assert (load_roidb plain plain "./data" "test" ["t.jpg"; "t.jpg"] small
          = (Ok twice_roidb, twice_after)) as H2 by compute_done.
  repeat (split; [assumption|]).
  exact (assembled_boxes_repeated plain plain "./data" "test" ["t.jpg"; "t.jpg"] small
           twice_roidb twice_after H1 H2).
Defined.

(** X9, witness: "a.jpg" listed twice; the record has the box of the
    second row. *)
Lemma last_listed_row_wins_witness :
  pkl relisted !! cache_file "./data" "train" = None
  ∧ load_roidb plain plain "./data" "train" ["a.jpg"] relisted
    = (Ok relisted_roidb, relisted_after)
  ∧ Img (mat relisted "./data")
    = [("a.jpg", [mkRow 1 1 2 2; mkRow 3 3 4 4])] ++ ("a.jpg", [mkRow 10 10 5 5]) :: []
  ∧ ("a.jpg" ∉ ([] : list (string * list Row)).*1)
  ∧ ∀ k, ["a.jpg"] !! k = Some "a.jpg" →
      ∃ r, relisted_roidb !! k = Some r
           ∧ gt_boxes r
             = Nat.iter (occurrences "a.jpg" ["a.jpg"]) (fmap add_corner)
                 (kept [mkRow 10 10 5 5])
           ∧ length (gt_pids r) = length (filter valid [mkRow 10 10 5 5]).
Proof.
  assert (pkl relisted !! cache_file "./data" "train" = None) as H1 by compute_done.
  assert (load_roidb plain plain "./data" "train" ["a.jpg"] relisted
          = (Ok relisted_roidb, relisted_after)) as H2 by compute_done.
  assert (Img (mat relisted "./data")
          = [("a.jpg", [mkRow 1 1 2 2; mkRow 3 3 4 4])]
            ++ ("a.jpg", [mkRow 10 10 5 5]) :: []) as H3 by reflexivity.
  assert ("a.jpg" ∉ ([] : list (string * list Row)).*1) as H4 by compute_done.
  repeat (split; [assumption|]).
  exact (last_listed_row_wins plain plain "./data" "train" ["a.jpg"] relisted
           relisted_roidb relisted_after _ "a.jpg" _ [] H1 H2 H3 H4).
Defined.

(** X10, witness: the test split of [small]. *)
Lemma test_pids_range_witness :
  "test" ≠ "train"
  ∧ pkl small !! cache_file "./data" "test" = None
  ∧ load_roidb plain plain "./data" "test" ["t.jpg"; "g.jpg"] small
    = (Ok small_test_roidb, small_test_after)
  ∧ ∀ k r, small_test_roidb !! k = Some r →
      ∃ name raw,
        ["t.jpg"; "g.jpg"] !! k = Some name
        ∧ listed (Img (mat small "./data")) name = Some raw
        ∧ length (gt_pids r) = length (kept raw)
        ∧ ∀ i pid, gt_pids r !! i = Some pid →
            -1 ≤ pid ≤ Z.of_nat (length (TestG50 (mat small "./data"))) - 1
            ∧ (pid = -1 ↔
               ∀ (q : nat) item box,
                 TestG50 (mat small "./data") !! q = Some item →
                 (name, box) = Query item
                 ∨ (name, box) ∈ gallery_reached (Gallery item) →
                 ¬ first_match (kept raw) (astype_int32 box) i).
Proof.
  assert ("test" ≠ "train") as H0 by done.
  assert (pkl small !! cache_file "./data" "test" = None) as H1 by compute_done.
  assert (load_roidb plain plain "./data" "test" ["t.jpg"; "g.jpg"] small
          = (Ok small_test_roidb, small_test_after)) as H2 by compute_done.
  repeat (split; [assumption|]).
  exact (test_pids_range plain plain "./data" "test" ["t.jpg"; "g.jpg"] small
           small_test_roidb small_test_after H0 H1 H2).
Defined.

(** X11, witness: the box (10, 10, 5, 5) occurs at positions 1 and 2;
    only position 1 is written. *)
Lemma set_box_pid_first_match_witness :
  mkRow 10 10 5 5 ∈ [mkRow 1 1 2 2; mkRow 10 10 5 5; mkRow 10 10 5 5]
  ∧ length [-1; -1; -1] = length [mkRow 1 1 2 2; mkRow 10 10 5 5; mkRow 10 10 5 5]
  ∧ fits_int32 4
  ∧ ∃ i pids',
      first_match [mkRow 1 1 2 2; mkRow 10 10 5 5; mkRow 10 10 5 5] (mkRow 10 10 5 5) i
      ∧ set_box_pid [mkRow 1 1 2 2; mkRow 10 10 5 5; mkRow 10 10 5 5] (mkRow 10 10 5 5)
          [-1; -1; -1] 4 small
        = (Ok pids', small)
      ∧ pids' !! i = Some 4
      ∧ length pids' = length [-1; -1; -1]
      ∧ ∀ j, j ≠ i → pids' !! j = [-1; -1; -1] !! j.
Proof.
  assert (mkRow 10 10 5 5 ∈ [mkRow 1 1 2 2; mkRow 10 10 5 5; mkRow 10 10 5 5]) as H1
    by compute_done.
  assert (length [-1; -1; -1]
          = length [mkRow 1 1 2 2; mkRow 10 10 5 5; mkRow 10 10 5 5]) as H2
    by reflexivity.
  assert (fits_int32 4) as H3 by compute_done.
  repeat (split; [assumption|]).
  exact (set_box_pid_first_match _ (mkRow 10 10 5 5) [-1; -1; -1] 4 small H1 H2 H3).
Defined.

(** X12, witness: the train cache of [small_train_after] holds the two
    records of the index list; that of [stale] holds none. *)
Lemma instances_from_cache_witness :
  pkl small_train_after !! cache_file "./data" "train" = Some small_train_roidb
  ∧ load_image_indexes "./data" "train" small_train_after
    = (Ok ["a.jpg"; "b.jpg"], small_train_after)
  ∧ (length ["a.jpg"; "b.jpg"] ≤ length (plain small_train_roidb))%nat
  ∧ load_cuhk_sysu_instances plain plain "./data" "train" small_train_after
    = (Ok (zip_with dict_of (plain small_train_roidb) ["a.jpg"; "b.jpg"]),
       with_cache_dir small_train_after "./data")
  ∧ pkl stale !! cache_file "./data" "train" = Some []
  ∧ load_image_indexes "./data" "train" stale = (Ok ["a.jpg"; "b.jpg"], stale)
  ∧ (length (plain []) < length ["a.jpg"; "b.jpg"])%nat
  ∧ load_cuhk_sysu_instances plain plain "./data" "train" stale
    = (Raise IndexError, with_cache_dir stale "./data").
Proof.
  assert (pkl small_train_after !! cache_file "./data" "train" = Some small_train_roidb)
    as H1 by compute_done.
  assert (load_image_indexes "./data" "train" small_train_after
          = (Ok ["a.jpg"; "b.jpg"], small_train_after)) as H2 by compute_done.
  assert (length ["a.jpg"; "b.jpg"] ≤ length (plain small_train_roidb))%nat as H3
    by compute_done.
  assert (pkl stale !! cache_file "./data" "train" = Some []) as H4 by compute_done.
  assert (load_image_indexes "./data" "train" stale = (Ok ["a.jpg"; "b.jpg"], stale))
    as H5 by compute_done.
  assert (length (plain []) < length ["a.jpg"; "b.jpg"])%nat as H6 by compute_done.
  split; [exact H1|]. split; [exact H2|]. split; [exact H3|].
  split.
  { exact (proj1 (instances_from_cache plain plain "./data" "train" small_train_after
                    small_train_roidb ["a.jpg"; "b.jpg"] H1 H2) H3). }
  split; [exact H4|]. split; [exact H5|]. split; [exact H6|].
  exact (proj2 (instances_from_cache plain plain "./data" "train" stale
                  [] ["a.jpg"; "b.jpg"] H4 H5) H6).
Defined.

(** X13, witness: the train split of [small]. *)
Lemma instances_assembled_witness :
  pkl small !! cache_file "./data" "train" = None
  ∧ load_image_indexes "./data" "train" small = (Ok ["a.jpg"; "b.jpg"], small)
  ∧ load_roidb plain plain "./data" "train" ["a.jpg"; "b.jpg"] small
    = (Ok small_train_roidb, small_train_after)
  ∧ load_cuhk_sysu_instances plain plain "./data" "train" small
    = (Ok (zip_with dict_of small_train_roidb ["a.jpg"; "b.jpg"]), small_train_after)
  ∧ zip_with dict_of small_train_roidb ["a.jpg"; "b.jpg"] = small_train_dicts
  ∧ length (zip_with dict_of small_train_roidb ["a.jpg"; "b.jpg"])
    = length ["a.jpg"; "b.jpg"].
Proof.
  assert (pkl small !! cache_file "./data" "train" = None) as H1 by compute_done.
  assert (load_image_indexes "./data" "train" small = (Ok ["a.jpg"; "b.jpg"], small))
    as H2 by compute_done.
  assert (load_roidb plain plain "./data" "train" ["a.jpg"; "b.jpg"] small
          = (Ok small_train_roidb, small_train_after)) as H3 by compute_done.
  split; [exact H1|]. split; [exact H2|]. split; [exact H3|].
  destruct (proj2 (instances_assembled plain plain "./data" "train" small
                     ["a.jpg"; "b.jpg"] H1 H2) small_train_roidb small_train_after H3)
    as (Hrun & Hlen & _).
  split; [exact Hrun|]. split; [reflexivity | exact Hlen].
Defined.

(** X14, witness: the query of [small] is on "t.jpg", which is in the
    pool, with the box listed for it. *)
Lemma probe_is_ground_truth_witness :
  pkl small !! cache_file "./data" "test" = None
  ∧ CUHK_SYSU_init plain plain "./data" "test" small
    = (Ok small_test_object, small_test_after)
  ∧ NoDup (pool (mat small "./data"))
  ∧ TestG50 (mat small "./data") !! 0%nat
    = Some (mkTestItem ("t.jpg", mkRow 5 5 10 10)
              [("t.jpg", None);
               ("g.jpg", Some (mkRow 2 3 4 5));
               ("ghost.jpg", Some (mkRow 1 1 2 2))])
  ∧ "t.jpg" ∈ pool (mat small "./data")
  ∧ ¬ unmatched (Img (mat small "./data")) (("t.jpg", mkRow 5 5 10 10), 0)
  ∧ ∃ probes k r,
      self_probes small_test_object = Some probes
      ∧ probes !! 0%nat = Some ("./data/Image/SSM/t.jpg", mkRow 5 5 15 15)
      ∧ self_image_indexes small_test_object !! k = Some "t.jpg"
      ∧ self_roidb small_test_object !! k = Some r
      ∧ image r = "./data/Image/SSM/t.jpg"
      ∧ mkRow 5 5 15 15 ∈ gt_boxes r.
Proof.
  assert (pkl small !! cache_file "./data" "test" = None) as H1 by compute_done.
  assert (CUHK_SYSU_init plain plain "./data" "test" small
          = (Ok small_test_object, small_test_after)) as H2 by compute_done.
  assert (NoDup (pool (mat small "./data"))) as H3 by compute_done.
  assert (TestG50 (mat small "./data") !! 0%nat
          = Some (mkTestItem ("t.jpg", mkRow 5 5 10 10)
                    [("t.jpg", None);
                     ("g.jpg", Some (mkRow 2 3 4 5));
                     ("ghost.jpg", Some (mkRow 1 1 2 2))])) as H4 by reflexivity.
  assert ("t.jpg" ∈ pool (mat small "./data")) as H5 by compute_done.
  assert (¬ unmatched (Img (mat small "./data")) (("t.jpg", mkRow 5 5 10 10), 0)) as H6
    by compute_done.
  repeat (split; [assumption|]).
  exact (probe_is_ground_truth plain plain "./data" small small_test_object
           small_test_after 0%nat _ H1 H2 H3 H4 H5 H6).
Defined.

(** X15, witness: the object of the test split of [small]. *)
Lemma constructor_fields_witness :
  pkl small !! cache_file "./data" "test" = None
  ∧ CUHK_SYSU_init plain plain "./data" "test" small
    = (Ok small_test_object, small_test_after)
  ∧ load_image_indexes "./data" "test" small
    = (Ok (self_image_indexes small_test_object), small)
  ∧ num_images small_test_object = length (self_roidb small_test_object)
  ∧ ("test" = "test" →
     self_probes small_test_object
     = Some (probe_of "./data" <$> TestG50 (mat small "./data")))
  ∧ ("test" ≠ "test" → self_probes small_test_object = None).
Proof.
  assert (pkl small !! cache_file "./data" "test" = None) as H1 by compute_done.
  assert (CUHK_SYSU_init plain plain "./data" "test" small
          = (Ok small_test_object, small_test_after)) as H2 by compute_done.
  repeat (split; [assumption|]).
  exact (constructor_fields plain plain "./data" "test" small small_test_object
           small_test_after H1 H2).
Defined.

(** X16, witness: the split "val" on [small]: the index list of the
    train split, identities from the test protocol (here all -1). *)
Lemma unknown_split_mixes_protocols_witness :
  "val" ≠ "train" ∧ "val" ≠ "test"
  ∧ pkl small !! cache_file "./data" "val" = None
  ∧ pkl small !! cache_file "./data" "test" = None
  ∧ load_image_indexes "./data" "val" small = load_image_indexes "./data" "train" small
  ∧ (load_roidb plain plain "./data" "val" ["a.jpg"; "b.jpg"] small).1
    = (load_roidb plain plain "./data" "test" ["a.jpg"; "b.jpg"] small).1.
Proof.
  assert ("val" ≠ "train") as H1 by done.
  assert ("val" ≠ "test") as H2 by done.
  assert (pkl small !! cache_file "./data" "val" = None) as H3 by compute_done.
  assert (pkl small !! cache_file "./data" "test" = None) as H4 by compute_done.
  repeat (split; [assumption|]).
  exact (unknown_split_mixes_protocols plain plain "./data" "val" ["a.jpg"; "b.jpg"] small
           H1 H2 H3 H4).
Defined.
